(** * DevLearn Pro backend (main.py): a shallow embedding and its properties

    The handlers of [main.py] are embedded as functions over an explicit
    document store.  Python values are modelled as follows.

    - [str] is [string]; a character is an [ascii].  The built-in
      methods [lower], [strip], [replace], [title] and [join] are
      given on the ASCII range, where they agree with CPython;
      characters above 127 are left alone by the case conversions and are
      never whitespace.
    - a document ([Dict[str, Any]]) is a [gmap string value]; [value]
      carries the scalar kinds that the handlers store and read back.
    - the database handle [db] is an [option DB]: [None] when the
      database module could not connect.  Taking the truth value of a
      connected handle raises, as pymongo's [Database] does.
    - an exception is a constructor of [result]. *)

From Stdlib Require Import ZArith NArith Ascii String Numbers.DecimalString.
From stdpp Require Import base option list gmap fin_maps strings.

Local Open Scope stdpp_scope.

(** ** Python string built-ins *)

Module PyStr.

Definition code (c : ascii) : N := N_of_ascii c.

Definition is_upper (c : ascii) : bool :=
  ((65 <=? code c) && (code c <=? 90))%N.

Definition is_lower (c : ascii) : bool :=
  ((97 <=? code c) && (code c <=? 122))%N.

Definition is_cased (c : ascii) : bool := is_upper c || is_lower c.

(** [str.isspace] on one character: TAB, LF, VT, FF, CR, the four
    separators FS, GS, RS, US, and the blank. *)
Definition is_space (c : ascii) : bool :=
  (((9 <=? code c) && (code c <=? 13))
   || ((28 <=? code c) && (code c <=? 32)))%N.

Definition lower_char (c : ascii) : ascii :=
  if is_upper c then ascii_of_N (code c + 32) else c.

Definition upper_char (c : ascii) : ascii :=
  if is_lower c then ascii_of_N (code c - 32) else c.

(** [s.lower()] *)
Fixpoint lower (s : string) : string :=
  match s with
  | EmptyString => EmptyString
  | String c s' => String (lower_char c) (lower s')
  end.

(** [s.lstrip()], [s.rstrip()] and [s.strip()] with no argument. *)
Fixpoint lstrip (s : string) : string :=
  match s with
  | EmptyString => EmptyString
  | String c s' => if is_space c then lstrip s' else s
  end.

Definition is_empty (s : string) : bool :=
  match s with EmptyString => true | String _ _ => false end.

Fixpoint rstrip (s : string) : string :=
  match s with
  | EmptyString => EmptyString
  | String c s' =>
      let r := rstrip s' in
      if is_space c && is_empty r then EmptyString else String c r
  end.

Definition strip (s : string) : string := rstrip (lstrip s).

(** [s.startswith(p)] *)
Fixpoint startswith (p s : string) : bool :=
  match p, s with
  | EmptyString, _ => true
  | String _ _, EmptyString => false
  | String a p', String b s' =>
      if Ascii.eqb a b then startswith p' s' else false
  end.

(** [s.replace(old, new)]: every non-overlapping occurrence of [old],
    found left to right, becomes [new].  [skip] counts the characters of
    an occurrence that has just been rewritten and are still to be
    dropped. *)
Fixpoint replace_go (old new : string) (skip : nat) (s : string) : string :=
  match s with
  | EmptyString => EmptyString
  | String c s' =>
      match skip with
      | S k => replace_go old new k s'
      | O =>
          if startswith old s
          then new +:+ replace_go old new (String.length old - 1) s'
          else String c (replace_go old new 0 s')
      end
  end.

(** With an empty [old] Python puts [new] before every character and
    at the end. *)
Fixpoint intersperse (new s : string) : string :=
  match s with
  | EmptyString => new
  | String c s' => new +:+ String c (intersperse new s')
  end.

Definition replace (old new s : string) : string :=
  if is_empty old then intersperse new s else replace_go old new 0 s.

(** [s.title()]: a cased character is upper-cased when it follows an
    uncased one (or starts the string) and lower-cased otherwise. *)
Fixpoint title_go (prev_cased : bool) (s : string) : string :=
  match s with
  | EmptyString => EmptyString
  | String c s' =>
      if is_cased c
      then String (if prev_cased then lower_char c else upper_char c)
                  (title_go true s')
      else String c (title_go false s')
  end.

Definition title (s : string) : string := title_go false s.

(** [sep.join(l)] *)
Fixpoint join (sep : string) (l : list string) : string :=
  match l with
  | [] => EmptyString
  | [x] => x
  | x :: l' => x +:+ sep +:+ join sep l'
  end.

(** Truth value of a [str]. *)
Definition truthy (s : string) : bool := negb (is_empty s).

End PyStr.

(** ** The code converter, [convert_code] *)

Record ConvertRequest := {
  source_language : string;
  target_language : string;
  code : string
}.

Record ConvertResponse := {
  converted : string;
  notes : string
}.

(** [x in [a, b, ...]] on strings *)
Definition str_in (x : string) (l : list string) : bool :=
  existsb (String.eqb x) l.

Definition convert_code (req : ConvertRequest) : ConvertResponse :=
  let src := PyStr.lower (source_language req) in
  let tgt := PyStr.lower (target_language req) in
  let code := PyStr.strip (code req) in
  if String.eqb src tgt then
    {| converted := code;
       notes := "Source and target languages are the same." |}
  else
    let converted := code in
    let notes : list string := [] in
    if str_in src ["javascript"; "js"] && str_in tgt ["python"] then
      let converted := PyStr.replace "console.log" "print" converted in
      let converted :=
        PyStr.replace "!==" "!=" (PyStr.replace "===" "==" converted) in
      let converted :=
        PyStr.replace "false" "False" (PyStr.replace "true" "True" converted) in
      let notes :=
        notes ++ ["Converted console.log to print and booleans to Python style."] in
      {| converted := converted; notes := PyStr.join " " notes |}
    else if str_in src ["python"] && str_in tgt ["javascript"; "js"] then
      let converted := PyStr.replace "print(" "console.log(" converted in
      let converted :=
        PyStr.replace "False" "false" (PyStr.replace "True" "true" converted) in
      let notes :=
        notes ++ ["Converted print to console.log and booleans to JS style."] in
      {| converted := converted; notes := PyStr.join " " notes |}
    else
      let notes :=
        notes ++ ["Generic transformation applied. Manual review recommended."] in
      {| converted := converted; notes := PyStr.join " " notes |}.


(** ** Values and documents *)

(** [datetime.date] and a naive [datetime.datetime] (pymongo's default
    decoding); the fields range as Python keeps them: a year in 1..9999,
    a microsecond below 1000000. *)
Record date := { d_year : N; d_month : N; d_day : N }.

Record datetime := {
  dt_date : date;
  dt_hour : N; dt_minute : N; dt_second : N; dt_microsecond : N
}.

Inductive value :=
  | VNone
  | VBool (b : bool)
  | VInt (z : Z)
  | VStr (s : string)
  | VObjectId (oid : N)          (* a bson ObjectId, 12 bytes *)
  | VDatetime (t : datetime)
  | VDate (d : date).

#[global] Instance date_eq_dec : EqDecision date.
Proof. solve_decision. Defined.
#[global] Instance datetime_eq_dec : EqDecision datetime.
Proof. solve_decision. Defined.
#[global] Instance value_eq_dec : EqDecision value.
Proof. solve_decision. Defined.

(** Python's truth value of an object, as [if x:] tests it. *)
Definition truthy (v : value) : bool :=
  match v with
  | VNone => false
  | VBool b => b
  | VInt z => negb (z =? 0)%Z
  | VStr s => PyStr.truthy s
  | VObjectId _ | VDatetime _ | VDate _ => true
  end.

Module Fmt.

Definition digit (n : N) : ascii := ascii_of_N (48 + n mod 10).

(** ["%0wd" % n] for an [n] of at most [w] digits *)
Fixpoint dec (w : nat) (n : N) : string :=
  match w with
  | O => EmptyString
  | S w' => dec w' (n / 10) +:+ String (digit n) EmptyString
  end.

Definition hex_digit (n : N) : ascii :=
  let d := (n mod 16)%N in
  if (d <? 10)%N then ascii_of_N (48 + d) else ascii_of_N (87 + d).

Fixpoint hex (w : nat) (n : N) : string :=
  match w with
  | O => EmptyString
  | S w' => hex w' (n / 16) +:+ String (hex_digit n) EmptyString
  end.

(** [date.isoformat()] *)
Definition date_iso (d : date) : string :=
  dec 4 (d_year d) +:+ "-" +:+ dec 2 (d_month d) +:+ "-" +:+ dec 2 (d_day d).

(** [datetime.isoformat(sep)] of a naive datetime *)
Definition datetime_iso (sep : string) (t : datetime) : string :=
  date_iso (dt_date t) +:+ sep
  +:+ dec 2 (dt_hour t) +:+ ":" +:+ dec 2 (dt_minute t)
  +:+ ":" +:+ dec 2 (dt_second t)
  +:+ (if (dt_microsecond t =? 0)%N then EmptyString
       else "." +:+ dec 6 (dt_microsecond t)).

End Fmt.

(** [str(v)] *)
Definition py_str (v : value) : string :=
  match v with
  | VNone => "None"
  | VBool true => "True"
  | VBool false => "False"
  | VInt z => NilZero.string_of_int (Z.to_int z)
  | VStr s => s
  | VObjectId oid => Fmt.hex 24 oid
  | VDatetime t => Fmt.datetime_iso " " t
  | VDate d => Fmt.date_iso d
  end.

(** [oid_str]: both paths of the function end in [str(obj)]. *)
Definition oid_str (obj : value) : string :=
  match obj with
  | VObjectId _ => py_str obj
  | _ => py_str obj
  end.

(** [d.get(k)], with Python's [None] for a missing key *)
Definition dict_get (d : gmap string value) (k : string) : value :=
  default VNone (d !! k).

(** One turn of the loop of [serialize_doc]: a [datetime] or a [date]
    becomes its [isoformat()], anything else stays. *)
Definition isoformat_value (v : value) : value :=
  match v with
  | VDatetime t => VStr (Fmt.datetime_iso "T" t)
  | VDate d => VStr (Fmt.date_iso d)
  | _ => v
  end.

(** [serialize_doc].  The argument is [None] when the caller's
    [find_one] found nothing.  The loop runs over a snapshot of the items
    and assigns to the key it is visiting, so it is a map over the
    values. *)
Definition serialize_doc (doc : option (gmap string value))
  : option (gmap string value) :=
  match doc with
  | None => doc
  | Some m =>
      if decide (m = ∅) then doc
      else
        let d := m in
        let d :=
          if truthy (dict_get d "_id")
          then <["id" := VStr (oid_str (dict_get d "_id"))]> (delete "_id" d)
          else d in
        Some (isoformat_value <$> d)
  end.

(** ** The document store *)

Inductive result (A : Type) :=
  | Ok (a : A)
  | HTTPException (status_code : nat) (detail : string)
  | Raised (exc : string).
Arguments Ok {A} a.
Arguments HTTPException {A} status_code detail.
Arguments Raised {A} exc.

(** A database: its collections by name, each in store order, and the
    next identifier the store will assign. *)
Record DB := {
  collections : gmap string (list (gmap string value));
  next_oid : N
}.

(** [db[name]] *)
Definition coll (db : DB) (name : string) : list (gmap string value) :=
  default [] (collections db !! name).

(** An equality filter [{k1: v1, ...}] holds of a document that has
    every [ki] bound to [vi]. *)
Definition matches (flt : list (string * value)) (d : gmap string value) : bool :=
  forallb (λ kv, bool_decide (d !! kv.1 = Some kv.2)) flt.

(** [collection.find_one(filter)]: the first match in store order *)
Definition find_one (db : DB) (name : string) (flt : list (string * value))
  : option (gmap string value) :=
  head (List.filter (matches flt) (coll db name)).

(** [collection.insert_one(doc)] for a [doc] without [_id], which is all
    the handlers pass: the store assigns a fresh ObjectId and appends. *)
Definition insert_one (db : DB) (name : string) (doc : gmap string value)
  : N * DB :=
  let oid := next_oid db in
  (oid,
   {| collections :=
        <[name := coll db name ++ [<["_id" := VObjectId oid]> doc]]>
          (collections db);
      next_oid := N.succ oid |}).

(** Modelled from the spec: [create_document] of the database module, which
    is not among the sources.  Section 4.1 gives it as
    [insert(collection_name, document) -> identifier].  With no database
    the specification asks for a service-unavailable condition and does
    not say in which form; it is recorded here as [Raised]. *)
Definition create_document (db : option DB) (name : string)
    (doc : gmap string value) : result value * option DB :=
  match db with
  | None => (Raised "Database not available", db)
  | Some s =>
      let '(oid, s') := insert_one s name doc in
      (Ok (VObjectId oid), Some s')
  end.

(** Modelled from the spec: [get_documents] of the database module, which
    is not among the sources.  Section 4.1 gives it as
    [find(collection_name, filter, limit)], the ordered sequence of at most
    [limit] documents matching [filter].  The order is the store's own,
    which the specification leaves open; here it is the order of
    insertion.  With no database the outcome is recorded as [Raised], as
    for [create_document]. *)
Definition get_documents (db : option DB) (name : string)
    (flt : list (string * value)) (limit : nat)
  : result (list (gmap string value)) :=
  match db with
  | None => Raised "Database not available"
  | Some s => Ok (take limit (List.filter (matches flt) (coll s name)))
  end.

(** bson's [ObjectId(x)]: an ObjectId is copied, a [str] must be 24
    hexadecimal digits.  [ObjectId(None)], for which bson makes up a new
    identifier, is never called by the handlers and is not modelled. *)
Definition hex_value (c : ascii) : option N :=
  let n := N_of_ascii c in
  if ((48 <=? n) && (n <=? 57))%N then Some (n - 48)%N
  else if ((97 <=? n) && (n <=? 102))%N then Some (n - 87)%N
  else if ((65 <=? n) && (n <=? 70))%N then Some (n - 55)%N
  else None.

Fixpoint parse_hex (acc : N) (s : string) : option N :=
  match s with
  | EmptyString => Some acc
  | String c s' =>
      match hex_value c with
      | Some d => parse_hex (16 * acc + d)%N s'
      | None => None
      end
  end.

Definition ObjectId (x : value) : result value :=
  match x with
  | VObjectId _ => Ok x
  | VStr s =>
      if (String.length s =? 24)%nat then
        match parse_hex 0 s with
        | Some n => Ok (VObjectId n)
        | None => Raised "InvalidId"
        end
      else Raised "InvalidId"
  | _ => Raised "TypeError"
  end.

(** ** Auth *)

Record SignupRequest := {
  su_name : string;
  su_email : string;
  su_provider : string
}.

Record LoginRequest := { li_email : string }.

Record AuthResponse := {
  user_id : string;
  name : string;
  email : string
}.

(** Truth value of what [find_one] returned: [None] and the empty dict
    are false. *)
Definition found (existing : option (gmap string value)) : bool :=
  match existing with
  | None => false
  | Some d => negb (bool_decide (d = ∅))
  end.

(** [AuthResponse(user_id=..., name=..., email=...)]: the model validates
    that [name] is a [str]. *)
Definition mk_AuthResponse (uid : string) (nm : value) (em : string)
  : result AuthResponse :=
  match nm with
  | VStr n => Ok {| user_id := uid; name := n; email := em |}
  | _ => Raised "ValidationError"
  end.

(** The document [user_doc] that [signup] builds; [now1] and [now2] are
    what its two calls of [utcnow()] return. *)
Definition user_doc (now1 now2 : datetime) (payload : SignupRequest)
  : gmap string value :=
  <["name" := VStr (su_name payload)]>
  (<["email" := VStr (su_email payload)]>
  (<["provider" := VStr (su_provider payload)]>
  (<["created_at" := VDatetime now1]>
  (<["updated_at" := VDatetime now2]> ∅)))).

(** The two tests that [main.py] applies to the handle.  [if db]
    (lines 133 and 150) asks the handle for its truth value, which a
    pymongo [Database] refuses with [NotImplementedError]; [if db is not
    None] (line 110) compares it with [None].  [None] itself is false
    under both. *)
Inductive handle_test := Truth | IsNotNone.

Definition test_handle (t : handle_test) (db : option DB) : result bool :=
  match db, t with
  | None, _ => Ok false
  | Some _, IsNotNone => Ok true
  | Some _, Truth => Raised "NotImplementedError"
  end.

(** The body of [signup], with the test on the handle left open. *)
Definition signup_with (t : handle_test) (now1 now2 : datetime)
    (db : option DB) (payload : SignupRequest)
  : result AuthResponse * option DB :=
  match test_handle t db with
  | Ok connected =>
      let existing :=
        if connected then
          match db with
          | Some s => find_one s "user" [("email", VStr (su_email payload))]
          | None => None
          end
        else None in
      if found existing then
        let ex := default ∅ existing in
        let uid := dict_get ex "_id" in
        (mk_AuthResponse (oid_str uid)
           (default (VStr (su_name payload)) (ex !! "name"))
           (su_email payload),
         db)
      else
        let user_doc := user_doc now1 now2 payload in
        match db with
        | None => (Raised "TypeError", db)
        | Some s =>
            let '(inserted_id, s') := insert_one s "user" user_doc in
            (mk_AuthResponse (oid_str (VObjectId inserted_id))
               (VStr (su_name payload)) (su_email payload),
             Some s')
        end
  | HTTPException c d => (HTTPException c d, db)
  | Raised e => (Raised e, db)
  end.

(** [signup] as written: [... if db else None]. *)
Definition signup : datetime → datetime → option DB → SignupRequest
                    → result AuthResponse * option DB :=
  signup_with Truth.

(** The body of [login], with the test on the handle left open. *)
Definition login_with (t : handle_test) (db : option DB)
    (payload : LoginRequest) : result AuthResponse :=
  match test_handle t db with
  | Ok connected =>
      let existing :=
        if connected then
          match db with
          | Some s => find_one s "user" [("email", VStr (li_email payload))]
          | None => None
          end
        else None in
      if negb (found existing) then
        HTTPException 404 "User not found. Please sign up."
      else
        let ex := default ∅ existing in
        mk_AuthResponse (oid_str (dict_get ex "_id"))
          (default (VStr "User") (ex !! "name")) (li_email payload)
  | HTTPException c d => HTTPException c d
  | Raised e => Raised e
  end.

(** [login] as written: [... if db else None]. *)
Definition login : option DB → LoginRequest → result AuthResponse :=
  login_with Truth.

(** ** Progress and ranks *)

Record ProgressUpdate := {
  pu_user_id : string;
  pu_course : string;
  pu_lesson : string;
  pu_completed : bool
}.

(** [payload.model_dump()] *)
Definition model_dump (p : ProgressUpdate) : gmap string value :=
  <["user_id" := VStr (pu_user_id p)]>
  (<["course" := VStr (pu_course p)]>
  (<["lesson" := VStr (pu_lesson p)]>
  (<["completed" := VBool (pu_completed p)]> ∅))).

Record ProgressResponse := {
  items : list (option (gmap string value));
  completed : nat;
  rank : string
}.

(** The chain of comparisons of [get_progress] (lines 179 to 188). *)
Definition rank_of (total_completed : nat) : string :=
  if (50 <=? total_completed)%nat then "🏆 Platinum"
  else if (25 <=? total_completed)%nat then "🥇 Gold"
  else if (10 <=? total_completed)%nat then "🥈 Silver"
  else if (3 <=? total_completed)%nat then "🥉 Bronze"
  else "🎓 Newbie".

(** [sum(1 for i in items if i.get("completed"))] *)
Definition count_completed (items : list (gmap string value)) : nat :=
  length (List.filter (λ i, truthy (dict_get i "completed")) items).

Definition get_progress (db : option DB) (user_id : string)
  : result ProgressResponse :=
  match get_documents db "progress" [("user_id", VStr user_id)] 500 with
  | Ok items =>
      let total_completed := count_completed items in
      let rank := rank_of total_completed in
      Ok {| items := map (λ i, serialize_doc (Some i)) items;
            completed := total_completed;
            rank := rank |}
  | HTTPException c d => HTTPException c d
  | Raised e => Raised e
  end.

Definition update_progress (db : option DB) (payload : ProgressUpdate)
  : result (option (gmap string value)) * option DB :=
  let doc := model_dump payload in
  match create_document db "progress" doc with
  | (Ok _id, db') =>
      match ObjectId _id with
      | Ok oid =>
          match db' with
          | Some s => (Ok (serialize_doc (find_one s "progress" [("_id", oid)])), db')
          | None => (Raised "TypeError", db')
          end
      | HTTPException c d => (HTTPException c d, db')
      | Raised e => (Raised e, db')
      end
  | (HTTPException c d, db') => (HTTPException c d, db')
  | (Raised e, db') => (Raised e, db')
  end.

(** ** The mentor *)

Record MentorRequest := {
  question : string;
  language : option string;
  level : option string
}.

Record MentorResponse := { answer : string }.

Definition nl : string := String (ascii_of_N 10) EmptyString.

(** [x or d] on an optional [str] *)
Definition str_or (x : option string) (d : string) : string :=
  match x with
  | Some s => if PyStr.truthy s then s else d
  | None => d
  end.

Definition tips : list (string * list string) :=
  [ ("beginner",
     [ "Break problems into small steps and write pseudo-code first.";
       "Practice daily: tiny consistent sessions beat long rare ones.";
       "Read errors carefully; they often tell you exactly what to fix." ]);
    ("intermediate",
     [ "Write tests for edge cases before refactoring.";
       "Profile performance before optimizing.";
       "Learn your debugger and step through code." ]);
    ("advanced",
     [ "Design for maintainability; prefer clarity over cleverness.";
       "Document assumptions and invariants in code.";
       "Benchmark with realistic data and environments." ]) ].

(** [table.get(k, dflt)] on a dict literal *)
Fixpoint tips_get (table : list (string * list string)) (k : string)
    (dflt : list string) : list string :=
  match table with
  | [] => dflt
  | (k', v) :: rest => if String.eqb k k' then v else tips_get rest k dflt
  end.

Definition ai_mentor (req : MentorRequest) : MentorResponse :=
  let lang := PyStr.title (str_or (language req) "programming") in
  let level := str_or (level req) "beginner" in
  let answer :=
    ("Here are some " +:+ level +:+ " tips for " +:+ lang +:+ ":" +:+ nl +:+ "- ")
    +:+ PyStr.join (nl +:+ "- ") (tips_get tips level (tips_get tips "beginner" [])) in
  {| answer := answer |}.

(** ** Vocabulary of the statements *)

(** The rank labels from lowest to highest, and the position of a label
    in that order. *)
Definition rank_order : list string :=
  ["🎓 Newbie"; "🥉 Bronze"; "🥈 Silver"; "🥇 Gold"; "🏆 Platinum"].

Fixpoint index_of (x : string) (l : list string) : nat :=
  match l with
  | [] => 0
  | y :: l' => if String.eqb x y then 0 else S (index_of x l')
  end.

Definition rank_level (r : string) : nat := index_of r rank_order.

(** A string has surrounding whitespace when its first or its last
    character is a whitespace character. *)
Definition first_space (s : string) : bool :=
  match s with
  | EmptyString => false
  | String c _ => PyStr.is_space c
  end.

Fixpoint last_space (s : string) : bool :=
  match s with
  | EmptyString => false
  | String c EmptyString => PyStr.is_space c
  | String _ s' => last_space s'
  end.

Definition surrounding_whitespace (s : string) : bool :=
  first_space s || last_space s.

(** The replacements of section 4.8 for javascript to python, in the
    order the specification lists them, and those for python to
    javascript. *)
Definition js_to_python (s : string) : string :=
  PyStr.replace "false" "False"
    (PyStr.replace "true" "True"
      (PyStr.replace "!==" "!="
        (PyStr.replace "===" "=="
          (PyStr.replace "console.log" "print" s)))).

Definition python_to_js (s : string) : string :=
  PyStr.replace "False" "false"
    (PyStr.replace "True" "true"
      (PyStr.replace "print(" "console.log(" s)).

(** What [convert_code] puts in [converted], branch by branch, as a
    function of the language names once lower-cased and of the code once
    stripped. *)
Definition convert_stripped (src tgt stripped : string) : string :=
  if String.eqb src tgt then stripped
  else if str_in src ["javascript"; "js"] && str_in tgt ["python"]
       then js_to_python stripped
  else if str_in src ["python"] && str_in tgt ["javascript"; "js"]
       then python_to_js stripped
  else stripped.

(** A User of the data model: an ObjectId, a name and an email. *)
Definition is_user (d : gmap string value) : Prop :=
  (∃ oid, d !! "_id" = Some (VObjectId oid))
  ∧ (∃ n, d !! "name" = Some (VStr n))
  ∧ (∃ e, d !! "email" = Some (VStr e)).

Definition users_wf (s : DB) : Prop := Forall is_user (coll s "user").

(** The user records of a database handle, and the progress entries a
    user has in the store. *)
Definition users (db : option DB) : list (gmap string value) :=
  match db with
  | Some s => coll s "user"
  | None => []
  end.

Definition entries_of (s : DB) (uid : string) : list (gmap string value) :=
  List.filter (matches [("user_id", VStr uid)]) (coll s "progress").

(** A store in which user [u] already has [n] completed lessons. *)
Definition lesson_payload : ProgressUpdate :=
  {| pu_user_id := "u"; pu_course := "python"; pu_lesson := "loops";
     pu_completed := true |}.

Definition busy_store (n : nat) : DB :=
  {| collections :=
       {[ "progress" :=
            map (λ i, <["_id" := VObjectId (N.of_nat i)]> (model_dump lesson_payload))
                (seq 0 n) ]};
     next_oid := N.of_nat n |}.

(** A store with one user, Ann. *)
Definition ann_doc : gmap string value :=
  <["_id" := VObjectId 7]>
  (<["name" := VStr "Ann"]>
  (<["email" := VStr "ann@example.org"]>
  (<["provider" := VStr "email"]> ∅))).

Definition ann_store : DB :=
  {| collections := {[ "user" := [ann_doc] ]}; next_oid := 8 |}.

(** The [completed] field of an answer of [get_progress], and the
    database a handler leaves behind. *)
Definition completed_of (r : result ProgressResponse) : option nat :=
  match r with
  | Ok g => Some (completed g)
  | _ => None
  end.

Definition twice_updated (db : option DB) (p : ProgressUpdate) : option DB :=
  (update_progress (update_progress db p).2 p).2.

Definition users_entries (uid : string) (db : option DB)
  : list (gmap string value) :=
  match db with
  | Some s => entries_of s uid
  | None => []
  end.

Definition sample_date : date := {| d_year := 2024; d_month := 3; d_day := 9 |}.
Definition sample_time : datetime :=
  {| dt_date := sample_date; dt_hour := 7; dt_minute := 5; dt_second := 0;
     dt_microsecond := 1500 |}.

(** ** Notes *)

Record NoteCreate := {
  nc_user_id : string;
  nc_title : string;
  nc_content : string;
  nc_language : option string
}.

(** [payload.model_dump()] of a [NoteCreate]; a missing language is
    dumped as [None]. *)
Definition note_dump (p : NoteCreate) : gmap string value :=
  <["user_id" := VStr (nc_user_id p)]>
  (<["title" := VStr (nc_title p)]>
  (<["content" := VStr (nc_content p)]>
  (<["language" := match nc_language p with
                   | Some l => VStr l
                   | None => VNone
                   end]> ∅))).

Definition list_notes (db : option DB) (user_id : string)
  : result (list (option (gmap string value))) :=
  match get_documents db "note" [("user_id", VStr user_id)] 100 with
  | Ok docs => Ok (map (λ d, serialize_doc (Some d)) docs)
  | HTTPException c d => HTTPException c d
  | Raised e => Raised e
  end.

Definition create_note (db : option DB) (payload : NoteCreate)
  : result (option (gmap string value)) * option DB :=
  let note := note_dump payload in
  match create_document db "note" note with
  | (Ok note_id, db') =>
      match ObjectId note_id with
      | Ok oid =>
          match db' with
          | Some s => (Ok (serialize_doc (find_one s "note" [("_id", oid)])), db')
          | None => (Raised "TypeError", db')
          end
      | HTTPException c d => (HTTPException c d, db')
      | Raised e => (Raised e, db')
      end
  | (HTTPException c d, db') => (HTTPException c d, db')
  | (Raised e, db') => (Raised e, db')
  end.

(** ** Vocabulary of the further properties *)

(** [x in s] on strings: [x] occurs in [s] as a substring. *)
Fixpoint contains (x s : string) : bool :=
  PyStr.startswith x s
  || match s with
     | EmptyString => false
     | String _ s' => contains x s'
     end.

(** The character [c] occurs in [s]. *)
Fixpoint char_in (c : ascii) (s : string) : bool :=
  match s with
  | EmptyString => false
  | String a s' => Ascii.eqb c a || char_in c s'
  end.

(** [s.isspace()] or [s] is empty: nothing but whitespace. *)
Fixpoint all_space (s : string) : bool :=
  match s with
  | EmptyString => true
  | String c s' => PyStr.is_space c && all_space s'
  end.

(** The ObjectId a document carries, if it carries one. *)
Definition doc_oid (d : gmap string value) : option N :=
  match d !! "_id" with
  | Some (VObjectId n) => Some n
  | _ => None
  end.

(** The store's own discipline on identifiers: in every collection each
    document carries an ObjectId, no two carry the same one, and all lie
    below the next identifier to be assigned. *)
Definition ids_ok (s : DB) : Prop :=
  ∀ cname,
    NoDup (omap doc_oid (coll s cname))
    ∧ Forall (λ d, ∃ n, doc_oid d = Some n ∧ (n < next_oid s)%N) (coll s cname).

(** The notes a user has in the store. *)
Definition notes_of (s : DB) (uid : string) : list (gmap string value) :=
  List.filter (matches [("user_id", VStr uid)]) (coll s "note").

(** A value that is neither a [datetime] nor a [date]. *)
Definition is_plain (v : value) : bool :=
  match v with
  | VDatetime _ | VDate _ => false
  | _ => true
  end.

(** Two non-empty strings are kept apart when the first character of
    each does not occur in the other. *)
Definition apart (x y : string) : bool :=
  match x, y with
  | String a _, String b _ => negb (char_in b x) && negb (char_in a y)
  | _, _ => false
  end.

(** Every character of [s] is an ASCII character. *)
Fixpoint is_ascii (s : string) : bool :=
  match s with
  | EmptyString => true
  | String c s' => (PyStr.code c <? 128)%N && is_ascii s'
  end.

(** A store in which user [u] already has a note. *)
Definition old_note : NoteCreate :=
  {| nc_user_id := "u"; nc_title := "first"; nc_content := "hello";
     nc_language := Some "python" |}.

Definition note_store : DB :=
  {| collections := {[ "note" := [<["_id" := VObjectId 4]> (note_dump old_note)] ]};
     next_oid := 5 |}.

(** * Properties *)

(** ** Worked examples *)

Example convert_js_py :
  convert_code {| source_language := "JavaScript"; target_language := "python";
                  code := "  if (a !== b) console.log(true === x) " |}
  = {| converted := "if (a != b) print(True == x)";
       notes := "Converted console.log to print and booleans to Python style." |}.
Proof. vm_compute. reflexivity. Qed.

Example serialize_sample :
  serialize_doc (Some (<["_id" := VObjectId 255]>
                       (<["created_at" := VDatetime sample_time]>
                        {["name" := VStr "Ann"]})))
  = Some (<["id" := VStr "0000000000000000000000ff"]>
          (<["created_at" := VStr "2024-03-09T07:05:00.001500"]>
           {["name" := VStr "Ann"]})).
Proof. vm_compute. reflexivity. Qed.

Example mentor_sample :
  answer (ai_mentor {| question := "why?"; language := Some "rust lang";
                       level := Some "advanced" |})
  = "Here are some advanced tips for Rust Lang:" +:+ nl
    +:+ "- Design for maintainability; prefer clarity over cleverness." +:+ nl
    +:+ "- Document assumptions and invariants in code." +:+ nl
    +:+ "- Benchmark with realistic data and environments.".
Proof. vm_compute. reflexivity. Qed.

Example strip_sample :
  PyStr.strip (nl +:+ "  a b " +:+ nl) = "a b".
Proof. vm_compute. reflexivity. Qed.

Example replace_sample :
  PyStr.replace "aa" "b" "aaaaa" = "bba" ∧ PyStr.replace "" "-" "ab" = "-a-b-".
Proof. vm_compute. done. Qed.

(** ** Ranks *)

Ltac rank_cases :=
  unfold rank_of;
  repeat match goal with
         | |- context [(?a <=? ?b)%nat] =>
             let E := fresh "E" in
             destruct (Nat.leb_spec a b) as [E|E]
         end.

Lemma rank_of_table (c : nat) :
  (50 ≤ c → rank_of c = "🏆 Platinum")
  ∧ (25 ≤ c < 50 → rank_of c = "🥇 Gold")
  ∧ (10 ≤ c < 25 → rank_of c = "🥈 Silver")
  ∧ (3 ≤ c < 10 → rank_of c = "🥉 Bronze")
  ∧ (c < 3 → rank_of c = "🎓 Newbie").
Proof. repeat split; intros H; rank_cases; solve [reflexivity | lia]. Qed.

Lemma rank_of_level (c : nat) :
  rank_level (rank_of c) =
    if (50 <=? c)%nat then 4 else if (25 <=? c)%nat then 3
    else if (10 <=? c)%nat then 2 else if (3 <=? c)%nat then 1 else 0.
Proof. rank_cases; reflexivity. Qed.

Lemma rank_of_mono (c1 c2 : nat) :
  c1 ≤ c2 → rank_level (rank_of c1) ≤ rank_level (rank_of c2).
Proof.
  intros H. rewrite !rank_of_level.
  repeat match goal with
         | |- context [(?a <=? ?b)%nat] => destruct (Nat.leb_spec a b)
         end; lia.
Qed.

Lemma get_progress_ok (s : DB) (uid : string) :
  get_progress (Some s) uid
  = Ok {| items := map (λ i, serialize_doc (Some i)) (take 500 (entries_of s uid));
          completed := count_completed (take 500 (entries_of s uid));
          rank := rank_of (count_completed (take 500 (entries_of s uid))) |}.
Proof. reflexivity. Qed.

(** C1.  [get_progress] answers with the rank that the thresholds of the
    data model give to its count of completed entries: 50 and more is
    Platinum, 25 and more Gold, 10 and more Silver, 3 and more Bronze,
    anything less Newbie; the eight boundary counts get the labels of the
    table; and the rank never goes down when the count goes up. *)
Theorem rank_thresholds :
  (∀ (s : DB) (uid : string),
      ∃ r, get_progress (Some s) uid = Ok r
           ∧ completed r = count_completed (take 500 (entries_of s uid))
           ∧ rank r = rank_of (completed r))
  ∧ (∀ c : nat,
        (50 ≤ c → rank_of c = "🏆 Platinum")
        ∧ (25 ≤ c < 50 → rank_of c = "🥇 Gold")
        ∧ (10 ≤ c < 25 → rank_of c = "🥈 Silver")
        ∧ (3 ≤ c < 10 → rank_of c = "🥉 Bronze")
        ∧ (c < 3 → rank_of c = "🎓 Newbie"))
  ∧ (rank_of 2 = "🎓 Newbie" ∧ rank_of 3 = "🥉 Bronze"
     ∧ rank_of 9 = "🥉 Bronze" ∧ rank_of 10 = "🥈 Silver"
     ∧ rank_of 24 = "🥈 Silver" ∧ rank_of 25 = "🥇 Gold"
     ∧ rank_of 49 = "🥇 Gold" ∧ rank_of 50 = "🏆 Platinum")
  ∧ (∀ c1 c2 : nat,
        c1 ≤ c2 → rank_level (rank_of c1) ≤ rank_level (rank_of c2)).
Proof.
  split; [|split; [|split]].
  - intros s uid. eexists. rewrite get_progress_ok. split; [reflexivity|].
    split; reflexivity.
  - apply rank_of_table.
  - repeat split; reflexivity.
  - apply rank_of_mono.
Qed.

Lemma rank_thresholds_witness :
  rank_of 50 = "🏆 Platinum"
  ∧ rank_level (rank_of 9) ≤ rank_level (rank_of 10).
Proof.
  destruct rank_thresholds as (_ & Htable & _ & Hmono).
  split.
  - apply (Htable 50). lia.
  - apply (Hmono 9 10). lia.
Defined.

(** ** Stripping *)

Section Strip.

Import PyStr.

Lemma lstrip_first (s : string) : first_space (lstrip s) = false.
Proof.
  induction s as [|c s IH]; simpl; [reflexivity|].
  destruct (is_space c) eqn:E; [exact IH|]. simpl. exact E.
Qed.

Lemma rstrip_last (s : string) : last_space (rstrip s) = false.
Proof.
  induction s as [|c s IH]; simpl; [reflexivity|].
  destruct (is_space c) eqn:E; destruct (rstrip s) eqn:R; simpl in *;
    try reflexivity; try exact E; exact IH.
Qed.

Lemma rstrip_first (s : string) :
  first_space s = false → first_space (rstrip s) = false.
Proof.
  destruct s as [|c s]; simpl; [reflexivity|].
  intros E. rewrite E. simpl. exact E.
Qed.

Lemma lstrip_id (s : string) : first_space s = false → lstrip s = s.
Proof. destruct s as [|c s]; simpl; [reflexivity|]. intros E. now rewrite E. Qed.

Lemma rstrip_id (s : string) : last_space s = false → rstrip s = s.
Proof.
  induction s as [|c s IH]; [reflexivity|].
  destruct s as [|c' s'].
  - simpl. intros E. now rewrite E.
  - intros E. change (last_space (String c (String c' s')))
      with (last_space (String c' s')) in E.
    specialize (IH E).
    change (rstrip (String c (String c' s')))
      with (let r := rstrip (String c' s') in
            if is_space c && is_empty r then EmptyString else String c r).
    rewrite IH. simpl. now rewrite andb_false_r.
Qed.

Lemma strip_clean (s : string) : surrounding_whitespace (strip s) = false.
Proof.
  unfold surrounding_whitespace, strip.
  rewrite rstrip_first by apply lstrip_first.
  now rewrite rstrip_last.
Qed.

(** [strip] leaves exactly the strings without surrounding whitespace
    alone. *)
Lemma strip_fixed_iff (s : string) :
  strip s = s ↔ surrounding_whitespace s = false.
Proof.
  split.
  - intros E. rewrite <- E. apply strip_clean.
  - unfold surrounding_whitespace, strip. intros E.
    apply orb_false_iff in E as [E1 E2].
    rewrite lstrip_id by exact E1. now apply rstrip_id.
Qed.

Lemma strip_idemp (s : string) : strip (strip s) = strip s.
Proof. apply strip_fixed_iff, strip_clean. Qed.

Lemma strip_changes (s : string) :
  surrounding_whitespace s = true → strip s ≠ s.
Proof.
  intros E F. apply strip_fixed_iff in F. congruence.
Qed.

End Strip.

(** ** Replacement keeps the ends of a string clean *)

Section Replace.

Import PyStr.

Lemma first_space_app (a b : string) :
  first_space (a +:+ b) = if is_empty a then first_space b else first_space a.
Proof. destruct a; reflexivity. Qed.

Lemma last_space_cons (c : ascii) (r : string) :
  last_space (String c r) = if is_empty r then is_space c else last_space r.
Proof. destruct r; reflexivity. Qed.

Lemma is_empty_app (a b : string) :
  is_empty (a +:+ b) = is_empty a && is_empty b.
Proof. destruct a; reflexivity. Qed.

Lemma last_space_app (a b : string) :
  last_space (a +:+ b) = if is_empty b then last_space a else last_space b.
Proof.
  induction a as [|c a IH].
  - simpl. destruct b; reflexivity.
  - change (String c a +:+ b) with (String c (a +:+ b)).
    rewrite !last_space_cons, IH, is_empty_app.
    destruct (is_empty a), (is_empty b); reflexivity.
Qed.

Variables old new : string.
Hypothesis new_nonempty : is_empty new = false.
Hypothesis new_clean : surrounding_whitespace new = false.

Lemma replace_go_empty (s : string) :
  is_empty (replace_go old new 0 s) = true → is_empty s = true.
Proof.
  destruct s as [|c s]; [reflexivity|]. simpl.
  destruct old as [|a o]; simpl.
  - rewrite is_empty_app, new_nonempty. discriminate.
  - destruct (Ascii.eqb a c), (startswith o s); simpl;
      rewrite ?is_empty_app, ?new_nonempty; discriminate.
Qed.

Lemma replace_go_first (s : string) :
  first_space s = false → first_space (replace_go old new 0 s) = false.
Proof.
  apply orb_false_iff in new_clean as [Hf _].
  destruct s as [|c s]; [reflexivity|].
  intros E.
  change (replace_go old new 0 (String c s))
    with (if startswith old (String c s)
          then new +:+ replace_go old new (String.length old - 1) s
          else String c (replace_go old new 0 s)).
  destruct (startswith old (String c s)).
  - now rewrite first_space_app, new_nonempty.
  - exact E.
Qed.

Lemma replace_go_last (s : string) :
  ∀ skip, last_space s = false → last_space (replace_go old new skip s) = false.
Proof.
  apply orb_false_iff in new_clean as [_ Hl].
  induction s as [|c s IH]; intros skip E; [reflexivity|].
  assert (Es : last_space s = false).
  { rewrite last_space_cons in E. destruct s; [reflexivity | exact E]. }
  destruct skip as [|k].
  - change (replace_go old new 0 (String c s))
      with (if startswith old (String c s)
            then new +:+ replace_go old new (String.length old - 1) s
            else String c (replace_go old new 0 s)).
    destruct (startswith old (String c s)).
    + rewrite last_space_app.
      destruct (is_empty (replace_go old new _ s)); [exact Hl | now apply IH].
    + rewrite last_space_cons.
      destruct (is_empty (replace_go old new 0 s)) eqn:R; [|now apply IH].
      apply replace_go_empty in R. destruct s; [exact E | discriminate].
  - simpl. now apply IH.
Qed.

Lemma replace_clean (s : string) :
  is_empty old = false →
  surrounding_whitespace s = false →
  surrounding_whitespace (replace old new s) = false.
Proof.
  intros Ho E. unfold replace. rewrite Ho.
  apply orb_false_iff in E as [E1 E2].
  unfold surrounding_whitespace.
  now rewrite replace_go_first, replace_go_last.
Qed.

End Replace.

Lemma js_to_python_clean (s : string) :
  surrounding_whitespace s = false → surrounding_whitespace (js_to_python s) = false.
Proof.
  intros E. unfold js_to_python.
  repeat (apply replace_clean; [reflexivity .. |]). exact E.
Qed.

Lemma python_to_js_clean (s : string) :
  surrounding_whitespace s = false → surrounding_whitespace (python_to_js s) = false.
Proof.
  intros E. unfold python_to_js.
  repeat (apply replace_clean; [reflexivity .. |]). exact E.
Qed.

(** ** The branches of [convert_code] *)

Lemma convert_code_same (X Y C : string) :
  PyStr.lower X = PyStr.lower Y →
  convert_code {| source_language := X; target_language := Y; code := C |}
  = {| converted := PyStr.strip C; notes := "Source and target languages are the same." |}.
Proof.
  intros E. unfold convert_code. cbn [source_language target_language code].
  now rewrite E, String.eqb_refl.
Qed.

Lemma str_in_cases (x : string) (l : list string) :
  str_in x l = true → Exists (eq x) l.
Proof.
  induction l as [|y l IH]; simpl; [discriminate|].
  destruct (String.eqb_spec x y) as [->|_]; simpl.
  - intros _. now left.
  - intros H. right. now apply IH.
Qed.

Lemma convert_code_js_python (X Y C : string) :
  str_in (PyStr.lower X) ["javascript"; "js"] = true →
  PyStr.lower Y = "python" →
  convert_code {| source_language := X; target_language := Y; code := C |}
  = {| converted := js_to_python (PyStr.strip C);
       notes := "Converted console.log to print and booleans to Python style." |}.
Proof.
  intros HX HY. unfold convert_code. cbn [source_language target_language code].
  rewrite HY. apply str_in_cases in HX.
  repeat match goal with
         | H : Exists _ _ |- _ => inversion H as [? ? ->|]; clear H; subst
         end; reflexivity.
Qed.

Lemma convert_code_python_js (X Y C : string) :
  PyStr.lower X = "python" →
  str_in (PyStr.lower Y) ["javascript"; "js"] = true →
  convert_code {| source_language := X; target_language := Y; code := C |}
  = {| converted := python_to_js (PyStr.strip C);
       notes := "Converted print to console.log and booleans to JS style." |}.
Proof.
  intros HX HY. unfold convert_code. cbn [source_language target_language code].
  rewrite HX. apply str_in_cases in HY.
  repeat match goal with
         | H : Exists _ _ |- _ => inversion H as [? ? ->|]; clear H; subst
         end; reflexivity.
Qed.

Lemma convert_code_converted (req : ConvertRequest) :
  converted (convert_code req)
  = convert_stripped (PyStr.lower (source_language req))
      (PyStr.lower (target_language req)) (PyStr.strip (code req)).
Proof.
  unfold convert_code, convert_stripped.
  repeat match goal with
         | |- context [if ?b then _ else _] => destruct b
         end; reflexivity.
Qed.

Lemma convert_stripped_clean (src tgt s : string) :
  surrounding_whitespace s = false →
  surrounding_whitespace (convert_stripped src tgt s) = false.
Proof.
  intros E. unfold convert_stripped.
  repeat match goal with
         | |- context [if ?b then _ else _] => destruct b
         end;
    auto using js_to_python_clean, python_to_js_clean.
Qed.

(** C2, as amended.  When the two language names agree up to letter case,
    [convert_code] returns the code with its leading and trailing
    whitespace stripped, and the note that the languages are the same;
    that is the submitted code itself exactly when it has no surrounding
    whitespace. *)
Theorem convert_same_language (X Y C : string) :
  PyStr.lower X = PyStr.lower Y →
  convert_code {| source_language := X; target_language := Y; code := C |}
  = {| converted := PyStr.strip C;
       notes := "Source and target languages are the same." |}
  ∧ (converted
       (convert_code {| source_language := X; target_language := Y; code := C |})
     = C ↔ surrounding_whitespace C = false).
Proof.
  intros E. rewrite (convert_code_same X Y C E). split; [reflexivity|].
  cbn [converted]. apply strip_fixed_iff.
Qed.

Lemma convert_same_language_witness :
  convert_code {| source_language := "Python"; target_language := "PYTHON";
                  code := "  pass " |}
  = {| converted := "pass";
       notes := "Source and target languages are the same." |}.
Proof.
  apply (proj1 (convert_same_language "Python" "PYTHON" "  pass " eq_refl)).
Defined.

(** C2 fails as stated: the same language on both sides, and yet the code
    does not come back unchanged. *)
Lemma convert_same_language_not_verbatim :
  PyStr.lower "Python" = PyStr.lower "python"
  ∧ converted
      (convert_code {| source_language := "Python"; target_language := "python";
                       code := " x = 1 " |})
    ≠ " x = 1 ".
Proof. split; [reflexivity|]. vm_compute. discriminate. Qed.

(** C4, as amended.  From javascript (or js) to python, [convert_code]
    applies console.log to print, === to ==, !== to !=, true to True and
    false to False, in that order, to the whole of the code once its
    leading and trailing whitespace has been stripped; the two examples of
    the specification come out as it says. *)
Theorem convert_js_to_python :
  (∀ X Y C : string,
      str_in (PyStr.lower X) ["javascript"; "js"] = true →
      PyStr.lower Y = "python" →
      convert_code {| source_language := X; target_language := Y; code := C |}
      = {| converted :=
             PyStr.replace "false" "False"
               (PyStr.replace "true" "True"
                 (PyStr.replace "!==" "!="
                   (PyStr.replace "===" "=="
                     (PyStr.replace "console.log" "print" (PyStr.strip C)))));
           notes :=
             "Converted console.log to print and booleans to Python style." |})
  ∧ converted
      (convert_code {| source_language := "javascript";
                       target_language := "python";
                       code := "console.log(true)" |}) = "print(True)"
  ∧ converted
      (convert_code {| source_language := "python";
                       target_language := "javascript";
                       code := "print(False)" |}) = "console.log(false)".
Proof.
  split; [|split; reflexivity].
  intros X Y C HX HY. now rewrite (convert_code_js_python X Y C HX HY).
Qed.

Lemma convert_js_to_python_witness :
  converted
    (convert_code {| source_language := "JS"; target_language := "Python";
                     code := " if (a !== b) console.log(false); " |})
  = "if (a != b) print(False);".
Proof.
  rewrite (proj1 convert_js_to_python "JS" "Python"
             " if (a !== b) console.log(false); " eq_refl eq_refl).
  reflexivity.
Defined.

(** C4 fails as stated: the replacements applied to the whole submitted
    code keep its leading blank, the handler's answer does not. *)
Lemma convert_js_to_python_not_whole :
  js_to_python " true" = " True"
  ∧ converted
      (convert_code {| source_language := "javascript";
                       target_language := "python"; code := " true" |})
    = "True"
  ∧ converted
      (convert_code {| source_language := "javascript";
                       target_language := "python"; code := " true" |})
    ≠ js_to_python " true".
Proof. repeat split; [vm_compute; discriminate]. Qed.

(** C9.  [convert_code] strips the submitted code before anything else:
    its answer is the same for the code and for the stripped code; the
    same-language branch and the unsupported-pair branch return the
    stripped code, the two converting branches the replacements applied
    to it; and whenever the submitted code has surrounding whitespace, no
    branch returns it verbatim. *)
Theorem convert_code_strips (req : ConvertRequest) :
  let src := PyStr.lower (source_language req) in
  let tgt := PyStr.lower (target_language req) in
  let stripped := PyStr.strip (code req) in
  convert_code req
  = convert_code {| source_language := source_language req;
                    target_language := target_language req;
                    code := stripped |}
  ∧ converted (convert_code req)
    = (if String.eqb src tgt then stripped
       else if str_in src ["javascript"; "js"] && str_in tgt ["python"]
            then js_to_python stripped
       else if str_in src ["python"] && str_in tgt ["javascript"; "js"]
            then python_to_js stripped
       else stripped)
  ∧ (surrounding_whitespace (code req) = true →
     converted (convert_code req) ≠ code req).
Proof.
  intros src tgt stripped. split; [|split].
  - unfold convert_code. cbn [source_language target_language code].
    fold src tgt stripped. unfold stripped. now rewrite strip_idemp.
  - apply convert_code_converted.
  - intros Hws Heq. subst src tgt stripped.
    pose proof (convert_stripped_clean (PyStr.lower (source_language req))
                  (PyStr.lower (target_language req)) _ (strip_clean (code req))) as Hc.
    rewrite <- convert_code_converted, Heq in Hc. congruence.
Qed.

Lemma convert_code_strips_witness :
  converted
    (convert_code {| source_language := "go"; target_language := "rust";
                     code := " x := 1" |})
  ≠ " x := 1".
Proof.
  apply (proj2 (proj2 (convert_code_strips
           {| source_language := "go"; target_language := "rust";
              code := " x := 1" |}))).
  reflexivity.
Defined.

(** ** Serialization *)

Lemma isoformat_value_idemp (v : value) :
  isoformat_value (isoformat_value v) = isoformat_value v.
Proof. destruct v; reflexivity. Qed.

Lemma isoformat_value_falsy (v : value) :
  truthy v = false → isoformat_value v = v.
Proof. destruct v; simpl; congruence. Qed.

Lemma isoformat_fmap_idemp (d : gmap string value) :
  isoformat_value <$> (isoformat_value <$> d) = isoformat_value <$> d.
Proof.
  apply map_eq. intros k. rewrite !lookup_fmap.
  destruct (d !! k); simpl; [|reflexivity].
  now rewrite isoformat_value_idemp.
Qed.

Lemma dict_get_isoformat (d : gmap string value) (k : string) :
  dict_get (isoformat_value <$> d) k = isoformat_value (dict_get d k).
Proof.
  unfold dict_get. rewrite lookup_fmap. now destruct (d !! k).
Qed.

(** The document just before the loop of [serialize_doc]. *)
Lemma serialize_doc_nonempty (m : gmap string value) :
  m ≠ ∅ →
  serialize_doc (Some m)
  = Some (isoformat_value <$>
            (if truthy (dict_get m "_id")
             then <["id" := VStr (oid_str (dict_get m "_id"))]> (delete "_id" m)
             else m)).
Proof. intros H. unfold serialize_doc. now destruct (decide (m = ∅)). Qed.

Lemma serialize_doc_falsy (m : gmap string value) :
  truthy (dict_get m "_id") = false →
  serialize_doc (Some m) = Some (isoformat_value <$> m).
Proof.
  intros H. unfold serialize_doc. rewrite H.
  destruct (decide (m = ∅)) as [->|_]; [|reflexivity].
  now rewrite fmap_empty.
Qed.

(** After one pass no truthy [_id] is left. *)
Lemma serialize_doc_no_id (m d : gmap string value) :
  serialize_doc (Some m) = Some d → truthy (dict_get d "_id") = false.
Proof.
  unfold serialize_doc. destruct (decide (m = ∅)) as [->|_].
  - intros [= <-]. reflexivity.
  - destruct (truthy (dict_get m "_id")) eqn:T; intros [= <-];
      rewrite dict_get_isoformat.
    + unfold dict_get at 1.
      rewrite lookup_insert_ne, lookup_delete_eq by discriminate. reflexivity.
    + now rewrite isoformat_value_falsy.
Qed.

(** C3.  Serializing twice is serializing once, for a document and for
    an absent one alike; the absent input and the empty document come back
    as they are. *)
Theorem serialize_doc_idempotent :
  (∀ doc : option (gmap string value),
      serialize_doc (serialize_doc doc) = serialize_doc doc)
  ∧ serialize_doc None = None
  ∧ serialize_doc (Some ∅) = Some ∅.
Proof.
  split; [|split; reflexivity].
  intros [m|]; [|reflexivity].
  destruct (serialize_doc (Some m)) as [d|] eqn:E; [|reflexivity].
  rewrite serialize_doc_falsy by exact (serialize_doc_no_id m d E).
  f_equal. revert E. unfold serialize_doc.
  destruct (decide (m = ∅)) as [->|_].
  - intros [= <-]. now rewrite fmap_empty.
  - intros [= <-]. apply isoformat_fmap_idemp.
Qed.

(** C10.  With an [_id] that is present, what [serialize_doc] does turns
    on its truth value.  A falsy one (None, 0, the empty string) skips the
    renaming: the result is the document with only its dates converted,
    [_id] is still bound to the same value and [id] is bound exactly when
    it was.  A truthy one is removed, and [id] is bound to its string
    form. *)
Theorem serialize_doc_id (m : gmap string value) (v : value) :
  m !! "_id" = Some v →
  ∃ d, serialize_doc (Some m) = Some d
       ∧ (truthy v = false →
          d = isoformat_value <$> m
          ∧ d !! "_id" = Some v
          ∧ (is_Some (d !! "id") ↔ is_Some (m !! "id")))
       ∧ (truthy v = true →
          d !! "_id" = None
          ∧ d !! "id" = Some (VStr (oid_str v))
          ∧ ∀ k, k ≠ "_id" → k ≠ "id" → d !! k = isoformat_value <$> m !! k).
Proof.
  intros Hid.
  assert (Hne : m ≠ ∅) by (intros ->; rewrite lookup_empty in Hid; discriminate).
  assert (Hget : dict_get m "_id" = v) by (unfold dict_get; now rewrite Hid).
  eexists. split; [apply (serialize_doc_nonempty m Hne)|].
  rewrite Hget. split; intros T; rewrite T.
  - split; [reflexivity|]. rewrite !lookup_fmap, Hid. simpl.
    split; [now rewrite isoformat_value_falsy|].
    apply fmap_is_Some.
  - rewrite !lookup_fmap. split; [|split].
    + rewrite lookup_insert_ne, lookup_delete_eq by discriminate. reflexivity.
    + now rewrite lookup_insert_eq.
    + intros k H1 H2. rewrite lookup_fmap.
      now rewrite lookup_insert_ne, lookup_delete_ne by congruence.
Qed.

Lemma serialize_doc_id_witness :
  ∃ d, serialize_doc (Some (<["_id" := VInt 0]> {["title" := VStr "t"]})) = Some d
       ∧ d !! "_id" = Some (VInt 0) ∧ ¬ is_Some (d !! "id").
Proof.
  destruct (serialize_doc_id (<["_id" := VInt 0]> {["title" := VStr "t"]}) (VInt 0))
    as (d & Hd & Hfalsy & _); [reflexivity|].
  exists d. split; [exact Hd|].
  destruct (Hfalsy eq_refl) as (_ & Hid & Hgain).
  split; [exact Hid|].
  intros H. apply Hgain in H. destruct H as [x Hx]. vm_compute in Hx. discriminate.
Defined.

Example serialize_falsy_ids :
  serialize_doc (Some {["_id" := VNone]}) = Some {["_id" := VNone]}
  ∧ serialize_doc (Some {["_id" := VInt 0]}) = Some {["_id" := VInt 0]}
  ∧ serialize_doc (Some {["_id" := VStr ""]}) = Some {["_id" := VStr ""]}
  ∧ serialize_doc (Some {["_id" := VInt 7]}) = Some {["id" := VStr "7"]}.
Proof. repeat split; vm_compute; reflexivity. Qed.

(** ** Looking up and inserting *)

Section Head_filter.

Context {A : Type} (f : A → bool).

Lemma head_filter_None (l : list A) :
  head (List.filter f l) = None ↔ Forall (λ y, f y = false) l.
Proof.
  induction l as [|a l IH]; simpl.
  - split; [constructor | reflexivity].
  - destruct (f a) eqn:E; simpl.
    + split; [discriminate|]. intros H. inversion H; congruence.
    + rewrite IH. split; [now constructor | now inversion 1].
Qed.

Lemma head_filter_Some (l : list A) (x : A) :
  head (List.filter f l) = Some x ↔
  ∃ l1 l2, l = l1 ++ x :: l2 ∧ f x = true ∧ Forall (λ y, f y = false) l1.
Proof.
  induction l as [|a l IH]; simpl.
  - split; [discriminate|]. intros (l1 & l2 & H & _). now destruct l1.
  - destruct (f a) eqn:E; simpl.
    + split.
      * intros [= ->]. exists [], l. repeat split; [exact E | constructor].
      * intros (l1 & l2 & H & Hx & Hl1). destruct l1 as [|b l1].
        -- simpl in H. congruence.
        -- simpl in H. injection H as -> ->. inversion Hl1; congruence.
    + rewrite IH. split.
      * intros (l1 & l2 & -> & Hx & Hl1). exists (a :: l1), l2.
        repeat split; [exact Hx | now constructor].
      * intros (l1 & l2 & H & Hx & Hl1). destruct l1 as [|b l1].
        -- simpl in H. congruence.
        -- simpl in H. injection H as -> ->. exists l1, l2.
           repeat split; [exact Hx | now inversion Hl1].
Qed.

End Head_filter.

Lemma matches_single (k : string) (v : value) (d : gmap string value) :
  matches [(k, v)] d = true ↔ d !! k = Some v.
Proof.
  unfold matches. simpl. rewrite andb_true_r. apply bool_decide_eq_true.
Qed.

Lemma matches_single_false (k : string) (v : value) (d : gmap string value) :
  matches [(k, v)] d = false ↔ d !! k ≠ Some v.
Proof.
  rewrite <- matches_single. destruct (matches [(k, v)] d); split; congruence.
Qed.

Lemma find_one_None (s : DB) (cname k : string) (v : value) :
  find_one s cname [(k, v)] = None
  ↔ Forall (λ d, d !! k ≠ Some v) (coll s cname).
Proof.
  unfold find_one. rewrite head_filter_None.
  apply Forall_proper; [|reflexivity]. intros d. apply matches_single_false.
Qed.

Lemma find_one_Some (s : DB) (cname k : string) (v : value)
    (d : gmap string value) :
  find_one s cname [(k, v)] = Some d → d ∈ coll s cname ∧ d !! k = Some v.
Proof.
  unfold find_one. rewrite head_filter_Some.
  intros (l1 & l2 & -> & Hm & _). split.
  - apply elem_of_app. right. now left.
  - now apply matches_single.
Qed.

Lemma find_one_is_Some (s : DB) (cname k : string) (v : value) :
  Exists (λ d, d !! k = Some v) (coll s cname) →
  ∃ d, find_one s cname [(k, v)] = Some d.
Proof.
  intros H. destruct (find_one s cname [(k, v)]) as [d|] eqn:E; [now exists d|].
  apply find_one_None in E. apply Exists_exists in H as (d & Hd & Hk).
  rewrite Forall_forall in E. now destruct (E d Hd).
Qed.

Lemma found_match (k : string) (v : value) (d : gmap string value) :
  d !! k = Some v → found (Some d) = true.
Proof.
  intros H. unfold found. apply negb_true_iff, bool_decide_eq_false.
  intros ->. rewrite lookup_empty in H. discriminate.
Qed.

Lemma coll_insert_one (s : DB) (cname : string) (doc : gmap string value) :
  coll (insert_one s cname doc).2 cname
  = coll s cname ++ [<["_id" := VObjectId (next_oid s)]> doc].
Proof. unfold insert_one, coll at 1. simpl. now rewrite lookup_insert_eq. Qed.

Lemma coll_insert_one_ne (s : DB) (cname other : string)
    (doc : gmap string value) :
  cname ≠ other → coll (insert_one s cname doc).2 other = coll s other.
Proof.
  intros H. unfold insert_one, coll at 1. simpl.
  now rewrite lookup_insert_ne.
Qed.

Lemma find_one_insert_one (s : DB) (cname k : string) (v : value)
    (doc : gmap string value) :
  find_one s cname [(k, v)] = None →
  (<["_id" := VObjectId (next_oid s)]> doc) !! k = Some v →
  find_one (insert_one s cname doc).2 cname [(k, v)]
  = Some (<["_id" := VObjectId (next_oid s)]> doc).
Proof.
  intros Hnone Hk. unfold find_one in *. rewrite coll_insert_one.
  apply head_filter_Some. exists (coll s cname), []. split; [reflexivity|].
  split; [now apply matches_single|]. now apply head_filter_None.
Qed.

(** ** Signup and login with the handle compared to [None]

    What the two handlers do once the test on the handle is the one of
    line 110. *)

Lemma signup_found (t1 t2 : datetime) (s : DB) (p : SignupRequest)
    (ex : gmap string value) :
  find_one s "user" [("email", VStr (su_email p))] = Some ex →
  signup_with IsNotNone t1 t2 (Some s) p
  = (mk_AuthResponse (oid_str (dict_get ex "_id"))
       (default (VStr (su_name p)) (ex !! "name")) (su_email p),
     Some s).
Proof.
  intros H. unfold signup_with. cbn [test_handle]. rewrite H.
  destruct (find_one_Some _ _ _ _ _ H) as [_ Hk].
  now rewrite (found_match _ _ _ Hk).
Qed.

Lemma signup_fresh (t1 t2 : datetime) (s : DB) (p : SignupRequest) :
  find_one s "user" [("email", VStr (su_email p))] = None →
  signup_with IsNotNone t1 t2 (Some s) p
  = (Ok {| user_id := oid_str (VObjectId (next_oid s));
           name := su_name p; email := su_email p |},
     Some (insert_one s "user" (user_doc t1 t2 p)).2).
Proof. intros H. unfold signup_with. cbn [test_handle]. rewrite H. reflexivity. Qed.

Lemma login_found (s : DB) (E : string) (ex : gmap string value) :
  find_one s "user" [("email", VStr E)] = Some ex →
  login_with IsNotNone (Some s) {| li_email := E |}
  = mk_AuthResponse (oid_str (dict_get ex "_id"))
      (default (VStr "User") (ex !! "name")) E.
Proof.
  intros H. unfold login_with. cbn [test_handle]. cbn [li_email]. rewrite H.
  destruct (find_one_Some _ _ _ _ _ H) as [_ Hk].
  now rewrite (found_match _ _ _ Hk).
Qed.

Lemma mk_AuthResponse_not_404 (uid : string) (nm : value) (em : string)
    (detail : string) :
  mk_AuthResponse uid nm em ≠ HTTPException 404 detail.
Proof. destruct nm; discriminate. Qed.

Lemma login_404_iff (db : option DB) (E : string) :
  login_with IsNotNone db {| li_email := E |}
  = HTTPException 404 "User not found. Please sign up."
  ↔ Forall (λ d, d !! "email" ≠ Some (VStr E)) (users db).
Proof.
  destruct db as [s|]; [|split; [constructor | reflexivity]].
  cbn [users]. rewrite <- find_one_None.
  destruct (find_one s "user" [("email", VStr E)]) as [ex|] eqn:F.
  - rewrite (login_found s E ex F). split; [|discriminate].
    intros H. now apply mk_AuthResponse_not_404 in H.
  - split; [reflexivity|]. intros _. unfold login_with. cbn [test_handle]. cbn [li_email].
    now rewrite F.
Qed.

Lemma user_doc_is_user (t1 t2 : datetime) (p : SignupRequest) (oid : N) :
  is_user (<["_id" := VObjectId oid]> (user_doc t1 t2 p)).
Proof.
  unfold is_user, user_doc. repeat split; eexists.
  - apply lookup_insert_eq.
  - rewrite lookup_insert_ne by discriminate. apply lookup_insert_eq.
  - do 2 (rewrite lookup_insert_ne by discriminate). apply lookup_insert_eq.
Qed.

(** Signing up keeps the user collection made of Users. *)
Lemma signup_users_wf (t1 t2 : datetime) (s : DB) (p : SignupRequest) :
  users_wf s →
  ∀ r s', signup_with IsNotNone t1 t2 (Some s) p = (r, Some s') → users_wf s'.
Proof.
  intros Hwf r s'.
  destruct (find_one s "user" [("email", VStr (su_email p))]) as [ex|] eqn:F.
  - rewrite (signup_found t1 t2 s p ex F). now intros [= _ <-].
  - rewrite (signup_fresh t1 t2 s p F). intros [= _ <-].
    change (Forall is_user (coll (insert_one s "user" (user_doc t1 t2 p)).2 "user")).
    rewrite coll_insert_one.
    apply Forall_app. split; [exact Hwf|].
    constructor; [apply user_doc_is_user | constructor].
Qed.

(** A store without collections has only Users in it. *)
Lemma empty_users_wf (n : N) : users_wf {| collections := ∅; next_oid := n |}.
Proof. constructor. Qed.

(** After a signup that answered, the first record under the email is
    the one whose identifier the signup returned, and its name, if it has
    one, is a string. *)
Lemma signup_then_find (t1 t2 : datetime) (db db1 : option DB)
    (p : SignupRequest) (r : AuthResponse) :
  signup_with IsNotNone t1 t2 db p = (Ok r, db1) →
  ∃ s1 ex,
    db1 = Some s1
    ∧ find_one s1 "user" [("email", VStr (su_email p))] = Some ex
    ∧ user_id r = oid_str (dict_get ex "_id")
    ∧ (ex !! "name" = None ∨ ∃ n, ex !! "name" = Some (VStr n)).
Proof.
  destruct db as [s|]; [|discriminate].
  destruct (find_one s "user" [("email", VStr (su_email p))]) as [ex|] eqn:F.
  - rewrite (signup_found t1 t2 s p ex F). intros [= H <-].
    exists s, ex. split; [reflexivity|]. split; [exact F|].
    destruct (ex !! "name") as [[]|]; simpl in H; try discriminate.
    + injection H as <-. split; [reflexivity|]. right. now eexists.
    + injection H as <-. split; [reflexivity|]. now left.
  - rewrite (signup_fresh t1 t2 s p F). intros [= <- <-].
    eexists _, _. split; [reflexivity|]. split.
    + apply find_one_insert_one; [exact F|].
      unfold user_doc. do 2 (rewrite lookup_insert_ne by discriminate).
      apply lookup_insert_eq.
    + split.
      * unfold dict_get. now rewrite lookup_insert_eq.
      * right. exists (su_name p). unfold user_doc.
        rewrite lookup_insert_ne by discriminate. apply lookup_insert_eq.
Qed.

Lemma mk_AuthResponse_name (uid em : string) (dflt : string)
    (nm : option value) :
  nm = None ∨ (∃ n, nm = Some (VStr n)) →
  ∃ r, mk_AuthResponse uid (default (VStr dflt) nm) em = Ok r ∧ user_id r = uid.
Proof.
  intros [-> | [n ->]]; simpl; eexists; split; reflexivity.
Qed.

(** In a store of Users every signup answers. *)
Lemma signup_answers (t1 t2 : datetime) (s : DB) (p : SignupRequest) :
  users_wf s →
  ∃ r s1, signup_with IsNotNone t1 t2 (Some s) p = (Ok r, Some s1) ∧ users_wf s1.
Proof.
  intros Hwf.
  destruct (signup_with IsNotNone t1 t2 (Some s) p) as [r db1] eqn:E.
  destruct (find_one s "user" [("email", VStr (su_email p))]) as [ex|] eqn:F.
  - destruct (find_one_Some _ _ _ _ _ F) as [Hin _].
    pose proof Hwf as Hall. unfold users_wf in Hall. rewrite Forall_forall in Hall.
    destruct (Hall ex Hin) as (_ & (n & Hn) & _).
    rewrite (signup_found t1 t2 s p ex F), Hn in E. injection E as <- <-.
    eexists _, s. split; [reflexivity | exact Hwf].
  - pose proof E as E'. rewrite (signup_fresh t1 t2 s p F) in E'.
    injection E' as <- <-. eexists _, _. split; [reflexivity|].
    eapply signup_users_wf; [exact Hwf | apply (signup_fresh t1 t2 s p F)].
Qed.

Lemma present_found (s : DB) (E : string) :
  Exists (λ d, d !! "email" = Some (VStr E)) (coll s "user")
  ↔ ∃ ex, find_one s "user" [("email", VStr E)] = Some ex.
Proof.
  split; [apply find_one_is_Some|].
  intros [ex F]. apply find_one_Some in F as [Hin Hem].
  apply Exists_exists. now exists ex.
Qed.

Lemma ann_store_wf : users_wf ann_store.
Proof.
  constructor; [|constructor]. repeat split; eexists; reflexivity.
Qed.

(** The upsert that [signup] is written for, with the handle compared to
    [None].  An email is present in the user store exactly when
    [find_one] has a first record under it.  A signup under such an email
    answers with that record's identifier, name and email, whatever name
    and provider were submitted, and leaves the store as it was.  Of two
    signups in a row under one email, the second returns the user_id of
    the first and changes nothing; and in a store of Users the first does
    answer. *)
Lemma guarded_signup_upserts :
  (∀ (s : DB) (E : string),
      Exists (λ d, d !! "email" = Some (VStr E)) (coll s "user")
      ↔ ∃ ex, find_one s "user" [("email", VStr E)] = Some ex)
  ∧ (∀ (t1 t2 : datetime) (s : DB) (p : SignupRequest)
       (ex : gmap string value) (n : string),
        find_one s "user" [("email", VStr (su_email p))] = Some ex →
        ex !! "name" = Some (VStr n) →
        ex !! "email" = Some (VStr (su_email p))
        ∧ signup_with IsNotNone t1 t2 (Some s) p
          = (Ok {| user_id := py_str (dict_get ex "_id"); name := n;
                   email := su_email p |},
             Some s))
  ∧ (∀ (t1 t2 t3 t4 : datetime) (db db1 : option DB) (p p' : SignupRequest)
       (r1 : AuthResponse),
        su_email p' = su_email p →
        signup_with IsNotNone t1 t2 db p = (Ok r1, db1) →
        ∃ r2, signup_with IsNotNone t3 t4 db1 p' = (Ok r2, db1) ∧ user_id r2 = user_id r1)
  ∧ (∀ (t1 t2 : datetime) (s : DB) (p : SignupRequest),
        users_wf s →
        ∃ r s1, signup_with IsNotNone t1 t2 (Some s) p = (Ok r, Some s1) ∧ users_wf s1).
Proof.
  split; [exact present_found|]. split; [|split; [|exact signup_answers]].
  - intros t1 t2 s p ex n F Hn.
    split; [now apply find_one_Some in F|].
    rewrite (signup_found t1 t2 s p ex F), Hn. simpl.
    now destruct (dict_get ex "_id").
  - intros t1 t2 t3 t4 db db1 p p' r1 Hem H1.
    destruct (signup_then_find t1 t2 db db1 p r1 H1)
      as (s1 & ex & -> & F & Hid & Hname).
    rewrite <- Hem in F. rewrite (signup_found t3 t4 s1 p' ex F).
    destruct (mk_AuthResponse_name (oid_str (dict_get ex "_id")) (su_email p')
                (su_name p') _ Hname) as (r2 & -> & Hr2).
    exists r2. split; [reflexivity | congruence].
Qed.

(** The lookup that [login] is written for, with the handle compared to
    [None].  It answers 404 exactly when no user record carries the
    email.  On a match it answers with the first matching record's
    identifier, name and email, and nothing but the email decides it.  A
    login that follows a signup under the same email returns the user_id
    that the signup returned. *)
Lemma guarded_login_by_email :
  (∀ (db : option DB) (E : string),
      login_with IsNotNone db {| li_email := E |}
      = HTTPException 404 "User not found. Please sign up."
      ↔ Forall (λ d, d !! "email" ≠ Some (VStr E)) (users db))
  ∧ (∀ (s : DB) (E : string) (ex : gmap string value) (n : string),
        find_one s "user" [("email", VStr E)] = Some ex →
        ex !! "name" = Some (VStr n) →
        ex !! "email" = Some (VStr E)
        ∧ login_with IsNotNone (Some s) {| li_email := E |}
          = Ok {| user_id := py_str (dict_get ex "_id"); name := n; email := E |})
  ∧ (∀ (t1 t2 : datetime) (db db1 : option DB) (p : SignupRequest)
       (r : AuthResponse),
        signup_with IsNotNone t1 t2 db p = (Ok r, db1) →
        ∃ r', login_with IsNotNone db1 {| li_email := su_email p |} = Ok r'
              ∧ user_id r' = user_id r).
Proof.
  split; [exact login_404_iff|]. split.
  - intros s E ex n F Hn. split; [now apply find_one_Some in F|].
    rewrite (login_found s E ex F), Hn. simpl.
    now destruct (dict_get ex "_id").
  - intros t1 t2 db db1 p r H1.
    destruct (signup_then_find t1 t2 db db1 p r H1)
      as (s1 & ex & -> & F & Hid & Hname).
    rewrite (login_found s1 _ ex F).
    destruct (mk_AuthResponse_name (oid_str (dict_get ex "_id")) (su_email p)
                "User" _ Hname) as (r' & -> & Hr').
    exists r'. split; [reflexivity | congruence].
Qed.

Example guarded_login_unknown :
  login_with IsNotNone (Some ann_store) {| li_email := "bob@example.org" |}
  = HTTPException 404 "User not found. Please sign up."
  ∧ login_with IsNotNone None {| li_email := "ann@example.org" |}
    = HTTPException 404 "User not found. Please sign up.".
Proof. split; reflexivity. Qed.

(** ** Signup and login as written *)

Lemma signup_connected (t1 t2 : datetime) (s : DB) (p : SignupRequest) :
  signup t1 t2 (Some s) p = (Raised "NotImplementedError", Some s).
Proof. reflexivity. Qed.

Lemma signup_no_database (t1 t2 : datetime) (p : SignupRequest) :
  signup t1 t2 None p = (Raised "TypeError", None).
Proof. reflexivity. Qed.

Lemma login_connected (s : DB) (p : LoginRequest) :
  login (Some s) p = Raised "NotImplementedError".
Proof. reflexivity. Qed.

Lemma login_no_database (p : LoginRequest) :
  login None p = HTTPException 404 "User not found. Please sign up.".
Proof. reflexivity. Qed.

(** C5.  The store has a record under Ann's email, and a signup under that
    email does not return it: [signup] raises at the truth test of the
    handle (line 133) before it looks anything up.  The same request to
    the handler that compares the handle with [None] returns Ann's
    identifier, name and email and leaves the store as it was.  As
    written, [signup] answers no request at all. *)
Theorem signup_raises_on_connected_handle :
  Exists (λ d, d !! "email" = Some (VStr "ann@example.org")) (coll ann_store "user")
  ∧ signup sample_time sample_time (Some ann_store)
      {| su_name := "Bob"; su_email := "ann@example.org"; su_provider := "google" |}
    = (Raised "NotImplementedError", Some ann_store)
  ∧ signup_with IsNotNone sample_time sample_time (Some ann_store)
      {| su_name := "Bob"; su_email := "ann@example.org"; su_provider := "google" |}
    = (Ok {| user_id := "000000000000000000000007"; name := "Ann";
             email := "ann@example.org" |},
       Some ann_store)
  ∧ (∀ t1 t2 db p r db', signup t1 t2 db p ≠ (Ok r, db')).
Proof.
  split; [left; reflexivity|]. split; [reflexivity|]. split; [reflexivity|].
  intros t1 t2 [s|] p r db'.
  - rewrite signup_connected. discriminate.
  - rewrite signup_no_database. discriminate.
Qed.

(** C7.  With a connected handle [login] answers neither 404 nor a user:
    under Ann's email, which the store has, and under Bob's, which it has
    not, it raises at the truth test of the handle (line 150).  The
    handler that compares the handle with [None] returns Ann's record for
    the first and 404 for the second. *)
Theorem login_raises_on_connected_handle :
  login (Some ann_store) {| li_email := "ann@example.org" |}
  = Raised "NotImplementedError"
  ∧ login (Some ann_store) {| li_email := "bob@example.org" |}
    = Raised "NotImplementedError"
  ∧ login_with IsNotNone (Some ann_store) {| li_email := "ann@example.org" |}
    = Ok {| user_id := "000000000000000000000007"; name := "Ann";
            email := "ann@example.org" |}
  ∧ login_with IsNotNone (Some ann_store) {| li_email := "bob@example.org" |}
    = HTTPException 404 "User not found. Please sign up."
  ∧ (∀ s p, login (Some s) p = Raised "NotImplementedError").
Proof. repeat split; reflexivity. Qed.

(** ** Progress *)

Lemma update_progress_ok (s : DB) (p : ProgressUpdate) :
  update_progress (Some s) p
  = (Ok (serialize_doc
           (find_one (insert_one s "progress" (model_dump p)).2 "progress"
              [("_id", VObjectId (next_oid s))])),
     Some (insert_one s "progress" (model_dump p)).2).
Proof. reflexivity. Qed.

(** Recording progress does not touch the user collection. *)
Lemma update_progress_users_wf (s : DB) (p : ProgressUpdate) :
  users_wf s →
  ∀ r s', update_progress (Some s) p = (r, Some s') → users_wf s'.
Proof.
  intros Hwf r s'. rewrite update_progress_ok. intros [= _ <-].
  unfold users_wf.
  change (Forall is_user (coll (insert_one s "progress" (model_dump p)).2 "user")).
  now rewrite coll_insert_one_ne by discriminate.
Qed.

Lemma entry_user_id (p : ProgressUpdate) (oid : N) :
  (<["_id" := VObjectId oid]> (model_dump p)) !! "user_id"
  = Some (VStr (pu_user_id p)).
Proof.
  unfold model_dump. rewrite lookup_insert_ne by discriminate.
  apply lookup_insert_eq.
Qed.

Lemma entry_completed (p : ProgressUpdate) (oid : N) :
  dict_get (<["_id" := VObjectId oid]> (model_dump p)) "completed"
  = VBool (pu_completed p).
Proof.
  unfold dict_get, model_dump.
  do 4 (rewrite lookup_insert_ne by discriminate).
  now rewrite lookup_insert_eq.
Qed.

Lemma entries_of_insert (s : DB) (p : ProgressUpdate) :
  entries_of (insert_one s "progress" (model_dump p)).2 (pu_user_id p)
  = entries_of s (pu_user_id p)
    ++ [<["_id" := VObjectId (next_oid s)]> (model_dump p)].
Proof.
  unfold entries_of. rewrite coll_insert_one, List.filter_app. f_equal.
  cbn [List.filter]. rewrite (proj2 (matches_single _ _ _) (entry_user_id p (next_oid s))).
  reflexivity.
Qed.

Lemma count_completed_snoc (l : list (gmap string value))
    (e : gmap string value) :
  count_completed (l ++ [e])
  = count_completed l + (if truthy (dict_get e "completed") then 1 else 0).
Proof.
  unfold count_completed. rewrite List.filter_app, length_app. simpl.
  now destruct (truthy (dict_get e "completed")).
Qed.

(** C6, as amended.  [update_progress] appends: two calls with one
    payload leave the progress collection with two more entries at its
    end, equal but for their distinct identifiers, and every other
    collection and every earlier entry as it was.  While the user's
    entries, the two new ones included, number at most the 500 that
    [get_progress] reads, its completed count goes up by two for a payload
    with completed=true (and stays for completed=false). *)
Theorem update_progress_appends (s : DB) (p : ProgressUpdate) :
  ∃ r1 r2 s1 s2 e1 e2,
    update_progress (Some s) p = (Ok r1, Some s1)
    ∧ update_progress (Some s1) p = (Ok r2, Some s2)
    ∧ e1 = <["_id" := VObjectId (next_oid s)]> (model_dump p)
    ∧ e2 = <["_id" := VObjectId (N.succ (next_oid s))]> (model_dump p)
    ∧ e1 ≠ e2
    ∧ coll s2 "progress" = coll s "progress" ++ [e1; e2]
    ∧ (∀ other, other ≠ "progress" → coll s2 other = coll s other)
    ∧ (length (entries_of s (pu_user_id p)) + 2 ≤ 500 →
       ∃ g0 g2,
         get_progress (Some s) (pu_user_id p) = Ok g0
         ∧ get_progress (Some s2) (pu_user_id p) = Ok g2
         ∧ completed g2 = completed g0 + (if pu_completed p then 2 else 0)).
Proof.
  set (s1 := (insert_one s "progress" (model_dump p)).2).
  set (s2 := (insert_one s1 "progress" (model_dump p)).2).
  eexists _, _, s1, s2, _, _.
  split; [apply update_progress_ok|]. split; [apply update_progress_ok|].
  split; [reflexivity|]. split; [reflexivity|]. split; [|split; [|split]].
  - intros H.
    assert (H' : (<["_id" := VObjectId (next_oid s)]> (model_dump p)) !! "_id"
                 = (<["_id" := VObjectId (N.succ (next_oid s))]> (model_dump p))
                     !! "_id") by now rewrite H.
    rewrite !lookup_insert_eq in H'. injection H' as H'. lia.
  - unfold s2. rewrite coll_insert_one. unfold s1 at 1.
    rewrite coll_insert_one, <- app_assoc. reflexivity.
  - intros other Hne. unfold s2, s1.
    rewrite !coll_insert_one_ne by congruence. reflexivity.
  - intros Hcap. eexists _, _. rewrite !get_progress_ok.
    split; [reflexivity|]. split; [reflexivity|]. cbn [completed].
    unfold s2. rewrite entries_of_insert. unfold s1 at 1.
    rewrite entries_of_insert.
    rewrite !take_ge by (rewrite ?length_app; simpl; lia).
    rewrite !count_completed_snoc, !entry_completed. simpl.
    destruct (pu_completed p); lia.
Qed.

Lemma update_progress_appends_witness :
  completed_of (get_progress (twice_updated (Some (busy_store 3)) lesson_payload) "u")
  = Some 5.
Proof.
  destruct (update_progress_appends (busy_store 3) lesson_payload)
    as (r1 & r2 & s1 & s2 & e1 & e2 & H1 & H2 & _ & _ & _ & _ & _ & Hcount).
  destruct Hcount as (g0 & g2 & G0 & G2 & Hc); [vm_compute; lia|].
  change (pu_user_id lesson_payload) with "u" in G0, G2.
  unfold twice_updated. rewrite H1. cbn [snd]. rewrite H2. cbn [snd].
  rewrite G2. cbn [completed_of]. rewrite Hc.
  vm_compute in G0. injection G0 as <-. reflexivity.
Defined.

(** C6 fails as stated: a user with 500 completed entries has a
    completed count of 500 before the two calls and of 500 after them,
    though the store then holds 502 entries of that user. *)
Lemma update_progress_beyond_cap :
  completed_of (get_progress (Some (busy_store 500)) "u") = Some 500
  ∧ completed_of
      (get_progress (twice_updated (Some (busy_store 500)) lesson_payload) "u")
    = Some 500
  ∧ (length ∘ users_entries "u")
      (twice_updated (Some (busy_store 500)) lesson_payload) = 502.
Proof. repeat split; vm_compute; reflexivity. Qed.

(** ** The mentor *)

(** C8.  Two requests that agree on language and level get the same
    answer from [ai_mentor], whatever their questions. *)
Theorem ai_mentor_ignores_question (r1 r2 : MentorRequest) :
  language r1 = language r2 →
  level r1 = level r2 →
  ai_mentor r1 = ai_mentor r2.
Proof.
  intros Hlang Hlevel. unfold ai_mentor. now rewrite Hlang, Hlevel.
Qed.

Lemma ai_mentor_ignores_question_witness :
  ai_mentor {| question := "What is a closure?"; language := Some "python";
               level := Some "advanced" |}
  = ai_mentor {| question := ""; language := Some "python";
                 level := Some "advanced" |}.
Proof. apply ai_mentor_ignores_question; reflexivity. Defined.

(** * Further properties *)

(** ** Serialization: what the result is made of *)

Lemma isoformat_value_plain (v : value) : is_plain (isoformat_value v) = true.
Proof. destruct v; reflexivity. Qed.

Lemma isoformat_value_of_plain (v : value) :
  is_plain v = true → isoformat_value v = v.
Proof. destruct v; simpl; congruence. Qed.

Lemma serialize_doc_total (m : gmap string value) :
  ∃ d, serialize_doc (Some m) = Some d.
Proof.
  unfold serialize_doc. destruct (decide (m = ∅)); eexists; reflexivity.
Qed.

(** X1.  Whatever the document, [serialize_doc] answers with a document
    in which no field holds a [datetime] or a [date] any more and in which
    [_id], if it is still there, is falsy. *)
Theorem serialize_doc_transport_safe (m : gmap string value) :
  ∃ d, serialize_doc (Some m) = Some d
       ∧ (∀ k v, d !! k = Some v → is_plain v = true)
       ∧ truthy (dict_get d "_id") = false.
Proof.
  destruct (serialize_doc_total m) as [d E].
  exists d. split; [exact E|]. split; [|exact (serialize_doc_no_id m d E)].
  intros k v Hk. revert E. unfold serialize_doc.
  destruct (decide (m = ∅)) as [->|_]; intros [= <-].
  - rewrite lookup_empty in Hk. discriminate.
  - rewrite lookup_fmap in Hk.
    destruct (_ !! k) as [v0|]; simpl in Hk; [|discriminate].
    injection Hk as <-. apply isoformat_value_plain.
Qed.

Lemma serialize_doc_transport_safe_witness :
  ∃ d, serialize_doc (Some (<["_id" := VObjectId 255]>
                            {["created_at" := VDatetime sample_time]})) = Some d
       ∧ d !! "created_at" = Some (VStr "2024-03-09T07:05:00.001500")
       ∧ is_plain (VStr "2024-03-09T07:05:00.001500") = true.
Proof.
  destruct (serialize_doc_transport_safe
              (<["_id" := VObjectId 255]> {["created_at" := VDatetime sample_time]}))
    as (d & Hd & Hplain & _).
  exists d. split; [exact Hd|].
  assert (Hk : d !! "created_at" = Some (VStr "2024-03-09T07:05:00.001500")).
  { vm_compute in Hd. injection Hd as <-. reflexivity. }
  split; [exact Hk | exact (Hplain _ _ Hk)].
Defined.

Lemma serialize_doc_keeps (m d : gmap string value) (k : string) :
  serialize_doc (Some m) = Some d →
  k ≠ "_id" → k ≠ "id" →
  d !! k = isoformat_value <$> m !! k.
Proof.
  intros E H1 H2. revert E. unfold serialize_doc.
  destruct (decide (m = ∅)) as [->|_]; intros [= <-].
  - now rewrite lookup_empty.
  - rewrite lookup_fmap. destruct (truthy (dict_get m "_id")); [|reflexivity].
    now rewrite lookup_insert_ne, lookup_delete_ne by congruence.
Qed.

(** X2.  [serialize_doc] touches no key but [_id] and [id]: every other
    key is bound after it exactly when it was before, a date under it has
    become its ISO string, and any other value is the value that was
    stored. *)
Theorem serialize_doc_other_fields (m d : gmap string value) (k : string) :
  serialize_doc (Some m) = Some d →
  k ≠ "_id" → k ≠ "id" →
  d !! k = isoformat_value <$> m !! k
  ∧ (∀ v, m !! k = Some v → is_plain v = true → d !! k = Some v)
  ∧ (d !! k = None ↔ m !! k = None).
Proof.
  intros E H1 H2.
  pose proof (serialize_doc_keeps m d k E H1 H2) as Hk.
  split; [exact Hk|]. split.
  - intros v Hv Hp. rewrite Hk, Hv. simpl. now rewrite isoformat_value_of_plain.
  - rewrite Hk. apply fmap_None.
Qed.

Lemma serialize_doc_other_fields_witness :
  ∃ d, serialize_doc (Some ann_doc) = Some d ∧ d !! "name" = Some (VStr "Ann").
Proof.
  destruct (serialize_doc_total ann_doc) as (d & Hd).
  exists d. split; [exact Hd|].
  destruct (serialize_doc_other_fields ann_doc d "name" Hd) as (_ & Hv & _);
    [discriminate | discriminate |].
  apply Hv; reflexivity.
Defined.

(** ** Occurrences and replacement *)

Section Occurrences.

Import PyStr.

Lemma contains_cons (x : string) (c : ascii) (s : string) :
  contains x (String c s) = startswith x (String c s) || contains x s.
Proof. reflexivity. Qed.

Lemma contains_tail (x : string) (c : ascii) (s : string) :
  contains x s = true → contains x (String c s) = true.
Proof. intros H. rewrite contains_cons, H. apply orb_true_r. Qed.

Lemma replace_go_step (old new : string) (c : ascii) (s : string) :
  replace_go old new 0 (String c s)
  = if startswith old (String c s)
    then new +:+ replace_go old new (String.length old - 1) s
    else String c (replace_go old new 0 s).
Proof. reflexivity. Qed.

(** Where [old] does not occur there is nothing to replace. *)
Lemma replace_go_absent (old new s : string) :
  contains old s = false → replace_go old new 0 s = s.
Proof.
  induction s as [|c s IH]; [reflexivity|].
  rewrite contains_cons. intros H. apply orb_false_iff in H as [H1 H2].
  rewrite replace_go_step, H1. f_equal. now apply IH.
Qed.

Lemma replace_absent (old new s : string) :
  is_empty old = false → contains old s = false → replace old new s = s.
Proof. intros Ho H. unfold replace. rewrite Ho. now apply replace_go_absent. Qed.

Lemma eqb_sym_false (a b : ascii) : Ascii.eqb a b = false → Ascii.eqb b a = false.
Proof. rewrite (Ascii.eqb_sym b a). trivial. Qed.

(** A string free of the first character of [new] that starts the
    rewritten text started the text already. *)
Lemma startswith_replace_go (old new' : string) (n0 : ascii) (t : string) :
  ∀ x, char_in n0 x = false →
       startswith x (replace_go old (String n0 new') 0 t) = true →
       startswith x t = true.
Proof.
  induction t as [|c t IH]; intros x Hx.
  - trivial.
  - destruct x as [|a x]; [reflexivity|].
    simpl in Hx. apply orb_false_iff in Hx as [Ha Hx].
    rewrite replace_go_step. destruct (startswith old (String c t)).
    + simpl. rewrite (eqb_sym_false _ _ Ha). discriminate.
    + simpl. destruct (Ascii.eqb a c); [|discriminate]. now apply IH.
Qed.

Lemma contains_app_apart (a : ascii) (x new r : string) :
  char_in a new = false →
  contains (String a x) (new +:+ r) = contains (String a x) r.
Proof.
  induction new as [|n new IH]; [reflexivity|].
  simpl char_in. intros H. apply orb_false_iff in H as [Hn H].
  change (String n new +:+ r) with (String n (new +:+ r)).
  rewrite contains_cons, (IH H). simpl. now rewrite Hn.
Qed.

Variables old new x : string.

(** Replacing brings in no occurrence of a string kept apart from
    [new]. *)
Lemma contains_replace_go (s : string) :
  apart x new = true →
  ∀ skip, contains x (replace_go old new skip s) = true → contains x s = true.
Proof.
  unfold apart. destruct x as [|a x'] eqn:Ex; [discriminate|].
  destruct new as [|n0 new'] eqn:En; [discriminate|].
  intros H. apply andb_true_iff in H as [Hn Ha].
  apply negb_true_iff in Hn, Ha.
  induction s as [|c s IH]; intros skip; [trivial|].
  destruct skip as [|k].
  - rewrite replace_go_step. destruct (startswith old (String c s)) eqn:M.
    + rewrite (contains_app_apart a x' _ _ Ha). intros H.
      apply contains_tail. now apply (IH _ H).
    + rewrite contains_cons. intros H. apply orb_true_iff in H as [H|H].
      * rewrite contains_cons.
        assert (Hs : startswith (String a x')
                       (replace_go old (String n0 new') 0 (String c s)) = true)
          by (rewrite replace_go_step, M; exact H).
        now rewrite (startswith_replace_go old new' n0 _ _ Hn Hs).
      * apply contains_tail. now apply (IH _ H).
  - intros H. apply contains_tail. apply (IH k). exact H.
Qed.

Lemma replace_keeps_absent (s : string) :
  apart x new = true →
  is_empty old = false →
  contains x s = false → contains x (replace old new s) = false.
Proof.
  intros Hap Ho H. unfold replace. rewrite Ho.
  destruct (contains x (replace_go old new 0 s)) eqn:E; [|reflexivity].
  apply (contains_replace_go s Hap) in E. congruence.
Qed.

End Occurrences.

Section Replaced.

Import PyStr.

Variables old new : string.
Hypothesis Hapart : apart old new = true.

(** After the replacement no occurrence of [old] is left, when [old] and
    [new] are kept apart. *)
Lemma replace_go_removes (s : string) :
  ∀ skip, contains old (replace_go old new skip s) = false.
Proof.
  pose proof Hapart as H. unfold apart in H.
  destruct old as [|o0 old'] eqn:Eo; [discriminate|].
  destruct new as [|n0 new'] eqn:En; [discriminate|].
  apply andb_true_iff in H as [Hn Ho]. apply negb_true_iff in Hn, Ho.
  induction s as [|c s IH]; intros skip; [reflexivity|].
  destruct skip as [|k].
  - rewrite replace_go_step. destruct (startswith (String o0 old') (String c s)) eqn:M.
    + rewrite (contains_app_apart o0 old' _ _ Ho). apply IH.
    + rewrite contains_cons, IH, orb_false_r.
      destruct (startswith (String o0 old')
                  (String c (replace_go (String o0 old') (String n0 new') 0 s)))
        eqn:S; [|reflexivity].
      assert (Hs : startswith (String o0 old')
                     (replace_go (String o0 old') (String n0 new') 0 (String c s))
                   = true)
        by (rewrite replace_go_step, M; exact S).
      apply (startswith_replace_go _ new' n0 _ _ Hn) in Hs. congruence.
  - exact (IH k).
Qed.

Lemma replace_removes (s : string) : contains old (replace old new s) = false.
Proof.
  unfold replace. destruct (is_empty old) eqn:E.
  - destruct old; [|discriminate]. discriminate Hapart.
  - apply replace_go_removes.
Qed.

End Replaced.

(** ** The converter: what is left of the source language *)

Lemma js_to_python_no_js (s : string) :
  contains "console.log" (js_to_python s) = false
  ∧ contains "true" (js_to_python s) = false
  ∧ contains "false" (js_to_python s) = false.
Proof.
  unfold js_to_python. split; [|split].
  - do 4 (apply replace_keeps_absent; [reflexivity | reflexivity |]).
    now apply replace_removes.
  - apply replace_keeps_absent; [reflexivity | reflexivity |].
    now apply replace_removes.
  - now apply replace_removes.
Qed.

Lemma python_to_js_no_python (s : string) :
  contains "True" (python_to_js s) = false
  ∧ contains "False" (python_to_js s) = false.
Proof.
  unfold python_to_js. split.
  - apply replace_keeps_absent; [reflexivity | reflexivity |].
    now apply replace_removes.
  - now apply replace_removes.
Qed.

(** X3.  What [convert_code] returns from javascript (or js) to python
    has no [console.log], no [true] and no [false] left in it, wherever
    they stood in the submitted code. *)
Theorem convert_js_python_leaves_no_js (X Y C : string) :
  str_in (PyStr.lower X) ["javascript"; "js"] = true →
  PyStr.lower Y = "python" →
  let out :=
    converted
      (convert_code {| source_language := X; target_language := Y; code := C |}) in
  contains "console.log" out = false
  ∧ contains "true" out = false
  ∧ contains "false" out = false.
Proof.
  intros HX HY. rewrite (convert_code_js_python X Y C HX HY).
  apply js_to_python_no_js.
Qed.

Lemma convert_js_python_leaves_no_js_witness :
  contains "true"
    (converted
       (convert_code {| source_language := "JS"; target_language := "Python";
                        code := "let istrue = true;" |})) = false.
Proof.
  apply (convert_js_python_leaves_no_js "JS" "Python" "let istrue = true;");
    reflexivity.
Defined.

(** X4.  What [convert_code] returns from python to javascript (or js)
    has no [True] and no [False] left in it. *)
Theorem convert_python_js_leaves_no_python (X Y C : string) :
  PyStr.lower X = "python" →
  str_in (PyStr.lower Y) ["javascript"; "js"] = true →
  let out :=
    converted
      (convert_code {| source_language := X; target_language := Y; code := C |}) in
  contains "True" out = false ∧ contains "False" out = false.
Proof.
  intros HX HY. rewrite (convert_code_python_js X Y C HX HY).
  apply python_to_js_no_python.
Qed.

Lemma convert_python_js_leaves_no_python_witness :
  contains "False"
    (converted
       (convert_code {| source_language := "python"; target_language := "js";
                        code := "isFalse = not False" |})) = false.
Proof.
  apply (convert_python_js_leaves_no_python "python" "js" "isFalse = not False");
    reflexivity.
Defined.

(** X5.  A code in which none of the five patterns occurs comes back from
    the javascript to python branch as it was submitted, but for the
    stripping. *)
Theorem convert_js_python_nothing_to_do (X Y C : string) :
  str_in (PyStr.lower X) ["javascript"; "js"] = true →
  PyStr.lower Y = "python" →
  contains "console.log" (PyStr.strip C) = false →
  contains "===" (PyStr.strip C) = false →
  contains "!==" (PyStr.strip C) = false →
  contains "true" (PyStr.strip C) = false →
  contains "false" (PyStr.strip C) = false →
  converted
    (convert_code {| source_language := X; target_language := Y; code := C |})
  = PyStr.strip C.
Proof.
  intros HX HY H1 H2 H3 H4 H5. rewrite (convert_code_js_python X Y C HX HY).
  cbn [converted]. unfold js_to_python.
  rewrite (replace_absent "console.log" "print" _ eq_refl H1).
  rewrite (replace_absent "===" "==" _ eq_refl H2).
  rewrite (replace_absent "!==" "!=" _ eq_refl H3).
  rewrite (replace_absent "true" "True" _ eq_refl H4).
  exact (replace_absent "false" "False" _ eq_refl H5).
Qed.

Lemma convert_js_python_nothing_to_do_witness :
  converted
    (convert_code {| source_language := "js"; target_language := "python";
                     code := "  x = 1 + 2 " |})
  = "x = 1 + 2".
Proof.
  apply (convert_js_python_nothing_to_do "js" "python" "  x = 1 + 2 ");
    reflexivity.
Defined.

Lemma lstrip_all_space (s : string) : all_space s = true → PyStr.lstrip s = "".
Proof.
  induction s as [|c s IH]; [reflexivity|]. simpl.
  intros H. apply andb_true_iff in H as [Hc Hs]. rewrite Hc. now apply IH.
Qed.

Lemma convert_stripped_empty (src tgt : string) : convert_stripped src tgt "" = "".
Proof.
  unfold convert_stripped.
  repeat match goal with
         | |- context [if ?b then _ else _] => destruct b
         end; reflexivity.
Qed.

(** X6.  A code that is empty or made of whitespace only is answered with
    the empty string, whatever the two languages. *)
Theorem convert_code_blank (req : ConvertRequest) :
  all_space (code req) = true → converted (convert_code req) = "".
Proof.
  intros H. rewrite convert_code_converted. unfold PyStr.strip.
  rewrite (lstrip_all_space _ H). apply convert_stripped_empty.
Qed.

Lemma convert_code_blank_witness :
  converted
    (convert_code {| source_language := "js"; target_language := "python";
                     code := "   " |}) = "".
Proof. apply convert_code_blank. reflexivity. Defined.

(** ** The mentor: language and level *)

Section Title.

Import PyStr.

Lemma lower_char_idemp (c : ascii) : lower_char (lower_char c) = lower_char c.
Proof. destruct c as [[] [] [] [] [] [] [] []]; reflexivity. Qed.

Lemma is_cased_lower_char (c : ascii) : is_cased (lower_char c) = is_cased c.
Proof. destruct c as [[] [] [] [] [] [] [] []]; reflexivity. Qed.

Lemma upper_lower_char (c : ascii) : upper_char (lower_char c) = upper_char c.
Proof. destruct c as [[] [] [] [] [] [] [] []]; reflexivity. Qed.

Lemma title_go_lower (s : string) :
  ∀ b, title_go b (lower s) = title_go b s.
Proof.
  induction s as [|c s IH]; intros b; [reflexivity|]. simpl.
  rewrite is_cased_lower_char, lower_char_idemp, upper_lower_char, !IH.
  destruct (is_cased c) eqn:E; [reflexivity|].
  unfold is_cased in E. apply orb_false_iff in E as [E _].
  unfold lower_char. now rewrite E.
Qed.

(** [title] sees its argument up to letter case only. *)
Lemma title_case_blind (s1 s2 : string) :
  lower s1 = lower s2 → title s1 = title s2.
Proof.
  intros H. unfold title.
  rewrite <- (title_go_lower s1), <- (title_go_lower s2). now rewrite H.
Qed.

Lemma lower_empty (s1 s2 : string) :
  lower s1 = lower s2 → is_empty s1 = is_empty s2.
Proof. destruct s1, s2; simpl; congruence. Qed.

End Title.

(** X7.  [ai_mentor] reads an ASCII language up to letter case: two
    requests with one level whose languages are ASCII strings that differ
    in the case of their letters only get the same answer. *)
Theorem ai_mentor_language_case (r1 r2 : MentorRequest) (l1 l2 : string) :
  language r1 = Some l1 →
  language r2 = Some l2 →
  is_ascii l1 = true →
  is_ascii l2 = true →
  PyStr.lower l1 = PyStr.lower l2 →
  level r1 = level r2 →
  ai_mentor r1 = ai_mentor r2.
Proof.
  intros H1 H2 _ _ Hl Hlev. unfold ai_mentor. rewrite H1, H2, Hlev.
  assert (Ht : PyStr.title (str_or (Some l1) "programming")
               = PyStr.title (str_or (Some l2) "programming")).
  { unfold str_or, PyStr.truthy. rewrite (lower_empty l1 l2 Hl).
    destruct (negb (PyStr.is_empty l2)); [|reflexivity].
    now apply title_case_blind. }
  now rewrite Ht.
Qed.

Lemma ai_mentor_language_case_witness :
  ai_mentor {| question := "q"; language := Some "javaSCRIPT"; level := None |}
  = ai_mentor {| question := "q"; language := Some "JavaScript"; level := None |}.
Proof.
  apply (ai_mentor_language_case _ _ "javaSCRIPT" "JavaScript"); reflexivity.
Defined.

(** A request with no language, or with the empty string for it, is
    answered as one for "programming", and a request with no level as one
    for "beginner". *)
Lemma ai_mentor_defaults (q : string) (lang lev : option string) :
  (lang = None ∨ lang = Some "" →
   ai_mentor {| question := q; language := lang; level := lev |}
   = ai_mentor {| question := q; language := Some "programming"; level := lev |})
  ∧ (lev = None ∨ lev = Some "" →
     ai_mentor {| question := q; language := lang; level := lev |}
     = ai_mentor {| question := q; language := lang; level := Some "beginner" |}).
Proof.
  split; intros [-> | ->]; reflexivity.
Qed.


(** ** Identifiers and their strings *)

Section Hex.

Local Open Scope N_scope.

Lemma hex_value_small (k : nat) :
  (k < 16)%nat →
  hex_value (if N.of_nat k <? 10 then ascii_of_N (48 + N.of_nat k)
             else ascii_of_N (87 + N.of_nat k))
  = Some (N.of_nat k).
Proof.
  intros H. do 16 (destruct k as [|k]; [reflexivity|]). lia.
Qed.

Lemma hex_value_digit (n : N) : hex_value (Fmt.hex_digit n) = Some (n mod 16).
Proof.
  unfold Fmt.hex_digit.
  assert (H : n mod 16 < 16) by (apply N.mod_upper_bound; discriminate).
  rewrite <- (N2Nat.id (n mod 16)). apply hex_value_small. lia.
Qed.

Lemma parse_hex_app (a b : string) :
  ∀ acc, parse_hex acc (a +:+ b)
         = match parse_hex acc a with
           | Some acc' => parse_hex acc' b
           | None => None
           end.
Proof.
  induction a as [|c a IH]; intros acc; [reflexivity|]. simpl.
  destruct (hex_value c); [apply IH | reflexivity].
Qed.

Lemma parse_hex_hex (w : nat) :
  ∀ n acc, parse_hex acc (Fmt.hex w n)
           = Some (acc * 16 ^ N.of_nat w + n mod 16 ^ N.of_nat w).
Proof.
  induction w as [|w IH]; intros n acc.
  - simpl. rewrite N.mod_1_r. f_equal. lia.
  - change (Fmt.hex (S w) n)
      with (Fmt.hex w (n / 16) +:+ String (Fmt.hex_digit n) EmptyString).
    rewrite parse_hex_app, IH. simpl. rewrite hex_value_digit. f_equal.
    rewrite Nat2N.inj_succ, N.pow_succ_r'.
    rewrite (N.Div0.mod_mul_r n 16 (16 ^ N.of_nat w)). lia.
Qed.

Lemma length_append (a b : string) :
  String.length (a +:+ b) = (String.length a + String.length b)%nat.
Proof. induction a as [|c a IH]; simpl; [reflexivity | now rewrite IH]. Qed.

Lemma length_hex (w : nat) (n : N) : String.length (Fmt.hex w n) = w.
Proof.
  revert n. induction w as [|w IH]; intros n; [reflexivity|].
  change (Fmt.hex (S w) n)
    with (Fmt.hex w (n / 16) +:+ String (Fmt.hex_digit n) EmptyString).
  rewrite length_append, IH. simpl. lia.
Qed.

Lemma parse_hex_oid (n : N) :
  n < 2 ^ 96 → parse_hex 0 (Fmt.hex 24 n) = Some n.
Proof.
  intros H. rewrite parse_hex_hex. f_equal.
  change (16 ^ N.of_nat 24) with (2 ^ 96). rewrite N.mod_small by exact H. lia.
Qed.

End Hex.

(** X8.  The string that [oid_str] gives for an ObjectId (of twelve
    bytes) is 24 characters long and reads back, through [ObjectId], as
    the identifier it came from; so two different identifiers never get
    the same string. *)
Theorem oid_str_round_trip (n : N) :
  (n < 2 ^ 96)%N →
  String.length (oid_str (VObjectId n)) = 24
  ∧ ObjectId (VStr (oid_str (VObjectId n))) = Ok (VObjectId n)
  ∧ ∀ m, (m < 2 ^ 96)%N →
         oid_str (VObjectId m) = oid_str (VObjectId n) → m = n.
Proof.
  intros H. split; [apply length_hex|]. split.
  - unfold ObjectId, oid_str, py_str. rewrite length_hex.
    change (24 =? 24)%nat with true. cbv iota. now rewrite parse_hex_oid.
  - intros m Hm E. unfold oid_str, py_str in E.
    pose proof (parse_hex_oid m Hm) as P. rewrite E, (parse_hex_oid n H) in P.
    congruence.
Qed.

Lemma oid_str_round_trip_witness :
  ObjectId (VStr (oid_str (VObjectId 48879))) = Ok (VObjectId 48879).
Proof. apply (oid_str_round_trip 48879). reflexivity. Defined.

(** ** The store's identifiers *)

Lemma doc_oid_insert (n : N) (doc : gmap string value) :
  doc_oid (<["_id" := VObjectId n]> doc) = Some n.
Proof. unfold doc_oid. now rewrite lookup_insert_eq. Qed.

Lemma next_oid_insert_one (s : DB) (cname : string) (doc : gmap string value) :
  next_oid (insert_one s cname doc).2 = N.succ (next_oid s).
Proof. reflexivity. Qed.

Lemma insert_one_ids_ok (s : DB) (cname : string) (doc : gmap string value) :
  ids_ok s → ids_ok (insert_one s cname doc).2.
Proof.
  intros H other. destruct (H other) as [Hnd Hlt].
  rewrite next_oid_insert_one.
  assert (Hlt' : Forall (λ d, ∃ n, doc_oid d = Some n ∧ (n < N.succ (next_oid s))%N)
                   (coll s other)).
  { eapply Forall_impl; [exact Hlt|]. intros d (n & Hn & Hb). exists n. split; [exact Hn | lia]. }
  destruct (decide (cname = other)) as [<-|Hne].
  - rewrite coll_insert_one. split.
    + rewrite omap_app. apply NoDup_app. split; [exact Hnd|]. split.
      * intros n Hin Hnew. simpl in Hnew. rewrite doc_oid_insert in Hnew.
        apply list_elem_of_singleton in Hnew. subst n.
        apply list_elem_of_omap in Hin as (d & Hd & Hoid).
        rewrite Forall_forall in Hlt. destruct (Hlt d Hd) as (m & Hm & Hb).
        rewrite Hoid in Hm. injection Hm as <-. lia.
      * simpl. rewrite doc_oid_insert. apply NoDup_singleton.
    + apply Forall_app. split; [exact Hlt'|]. constructor; [|constructor].
      exists (next_oid s). split; [apply doc_oid_insert | lia].
  - rewrite coll_insert_one_ne by exact Hne. split; assumption.
Qed.

Lemma find_one_fresh_none (s : DB) (cname : string) :
  ids_ok s → find_one s cname [("_id", VObjectId (next_oid s))] = None.
Proof.
  intros H. apply find_one_None. destruct (H cname) as [_ Hlt].
  eapply Forall_impl; [exact Hlt|]. intros d (n & Hn & Hb) E.
  unfold doc_oid in Hn. rewrite E in Hn. injection Hn as <-. lia.
Qed.

(** What was just inserted is what the lookup by its identifier finds. *)
Lemma find_one_inserted (s : DB) (cname : string) (doc : gmap string value) :
  ids_ok s →
  find_one (insert_one s cname doc).2 cname [("_id", VObjectId (next_oid s))]
  = Some (<["_id" := VObjectId (next_oid s)]> doc).
Proof.
  intros H. apply find_one_insert_one.
  - now apply find_one_fresh_none.
  - apply lookup_insert_eq.
Qed.

Lemma create_note_ok (s : DB) (p : NoteCreate) :
  create_note (Some s) p
  = (Ok (serialize_doc
           (find_one (insert_one s "note" (note_dump p)).2 "note"
              [("_id", VObjectId (next_oid s))])),
     Some (insert_one s "note" (note_dump p)).2).
Proof. reflexivity. Qed.

Lemma ids_ok_empty (n : N) : ids_ok {| collections := ∅; next_oid := n |}.
Proof.
  intros cname. unfold coll. simpl. rewrite lookup_empty. simpl.
  split; constructor.
Qed.

(** ** Reading back what was written *)

Lemma serialize_inserted (n : N) (doc : gmap string value) :
  doc !! "_id" = None →
  isoformat_value <$> doc = doc →
  serialize_doc (Some (<["_id" := VObjectId n]> doc))
  = Some (<["id" := VStr (oid_str (VObjectId n))]> doc).
Proof.
  intros Hid Hiso. rewrite serialize_doc_nonempty by apply insert_non_empty.
  unfold dict_get. rewrite lookup_insert_eq.
  cbn [default from_option id truthy].
  rewrite delete_insert_eq, (delete_id _ _ Hid), fmap_insert, Hiso.
  reflexivity.
Qed.

Lemma model_dump_plain (p : ProgressUpdate) :
  model_dump p !! "_id" = None ∧ isoformat_value <$> model_dump p = model_dump p.
Proof.
  unfold model_dump. split.
  - now rewrite !lookup_insert_ne, lookup_empty by discriminate.
  - now rewrite !fmap_insert, fmap_empty.
Qed.

Lemma note_dump_plain (p : NoteCreate) :
  note_dump p !! "_id" = None ∧ isoformat_value <$> note_dump p = note_dump p.
Proof.
  unfold note_dump. split.
  - now rewrite !lookup_insert_ne, lookup_empty by discriminate.
  - rewrite !fmap_insert, fmap_empty. now destruct (nc_language p).
Qed.

(** X10.  In a store whose identifiers are in order, [update_progress]
    answers with the entry it has just stored: the four fields of the
    payload as submitted, and under [id] the string of the identifier the
    store assigned; no [_id] is left in the answer. *)
Theorem update_progress_returns_entry (s : DB) (p : ProgressUpdate) :
  ids_ok s →
  ∃ d s',
    update_progress (Some s) p = (Ok (Some d), Some s')
    ∧ d = <["id" := VStr (oid_str (VObjectId (next_oid s)))]> (model_dump p)
    ∧ d !! "_id" = None
    ∧ d !! "user_id" = Some (VStr (pu_user_id p))
    ∧ d !! "course" = Some (VStr (pu_course p))
    ∧ d !! "lesson" = Some (VStr (pu_lesson p))
    ∧ d !! "completed" = Some (VBool (pu_completed p)).
Proof.
  intros H. destruct (model_dump_plain p) as [Hid Hiso].
  eexists _, _. rewrite update_progress_ok, (find_one_inserted _ _ _ H).
  rewrite (serialize_inserted _ _ Hid Hiso). split; [reflexivity|].
  split; [reflexivity|]. unfold model_dump.
  repeat split;
    repeat (rewrite lookup_insert_ne by discriminate);
    rewrite ?lookup_insert_eq, ?lookup_empty; reflexivity.
Qed.

Lemma busy_store_3_ids_ok : ids_ok (busy_store 3).
Proof.
  intros cname. unfold coll, busy_store. cbn [collections next_oid].
  destruct (decide (cname = "progress")) as [->|Hne].
  - rewrite lookup_singleton_eq. cbn [default from_option id]. split.
    + apply (bool_decide_unpack _). reflexivity.
    + repeat constructor; eexists; (split; [reflexivity | reflexivity]).
  - rewrite lookup_singleton_ne by congruence. split; constructor.
Qed.

Lemma update_progress_returns_entry_witness :
  ∃ d s',
    update_progress (Some (busy_store 3)) lesson_payload = (Ok (Some d), Some s')
    ∧ d !! "id" = Some (VStr "000000000000000000000003").
Proof.
  destruct (update_progress_returns_entry (busy_store 3) lesson_payload
              busy_store_3_ids_ok)
    as (d & s' & Hu & Hd & _).
  exists d, s'. split; [exact Hu|]. rewrite Hd. reflexivity.
Defined.

(** X11.  In a store whose identifiers are in order, [create_note]
    answers with the note it has just stored: user, title and content as
    submitted, the language as submitted or [None] when there was none,
    and under [id] the string of the new identifier. *)
Theorem create_note_returns_note (s : DB) (p : NoteCreate) :
  ids_ok s →
  ∃ d s',
    create_note (Some s) p = (Ok (Some d), Some s')
    ∧ d = <["id" := VStr (oid_str (VObjectId (next_oid s)))]> (note_dump p)
    ∧ d !! "_id" = None
    ∧ d !! "user_id" = Some (VStr (nc_user_id p))
    ∧ d !! "title" = Some (VStr (nc_title p))
    ∧ d !! "content" = Some (VStr (nc_content p))
    ∧ d !! "language" = Some (from_option VStr VNone (nc_language p)).
Proof.
  intros H. destruct (note_dump_plain p) as [Hid Hiso].
  eexists _, _. rewrite create_note_ok, (find_one_inserted _ _ _ H).
  rewrite (serialize_inserted _ _ Hid Hiso). split; [reflexivity|].
  split; [reflexivity|]. unfold note_dump.
  repeat split;
    repeat (rewrite lookup_insert_ne by discriminate);
    rewrite ?lookup_insert_eq, ?lookup_empty; try reflexivity.
Qed.

Lemma create_note_returns_note_witness :
  ∃ d s',
    create_note (Some {| collections := ∅; next_oid := 10 |})
      {| nc_user_id := "u"; nc_title := "t"; nc_content := "";
         nc_language := None |} = (Ok (Some d), Some s')
    ∧ d !! "id" = Some (VStr "00000000000000000000000a")
    ∧ d !! "language" = Some VNone.
Proof.
  destruct (create_note_returns_note {| collections := ∅; next_oid := 10 |}
              {| nc_user_id := "u"; nc_title := "t"; nc_content := "";
                 nc_language := None |} (ids_ok_empty 10))
    as (d & s' & Hc & Hd & _ & _ & _ & _ & Hl).
  exists d, s'. split; [exact Hc|]. split; [|exact Hl].
  rewrite Hd. reflexivity.
Defined.

(** ** Listings *)

Lemma In_take {A : Type} (x : A) (n : nat) (l : list A) :
  In x (take n l) → In x l.
Proof.
  revert n. induction l as [|a l IH]; intros [|n]; simpl; try tauto.
  intros [->|H]; [now left | right; now apply (IH n)].
Qed.

Lemma listed_belongs (s_docs : list (gmap string value)) (uid : string)
    (limit : nat) (x : option (gmap string value)) :
  In x (map (λ d, serialize_doc (Some d))
          (take limit (List.filter (matches [("user_id", VStr uid)]) s_docs))) →
  ∃ d, x = Some d ∧ d !! "user_id" = Some (VStr uid).
Proof.
  intros H. apply in_map_iff in H as (d0 & <- & Hd0).
  apply In_take, filter_In in Hd0 as [_ Hm]. apply matches_single in Hm.
  destruct (serialize_doc_total d0) as [d Hd]. exists d. split; [exact Hd|].
  rewrite (serialize_doc_keeps d0 d "user_id" Hd) by discriminate.
  now rewrite Hm.
Qed.

Lemma list_notes_ok (s : DB) (uid : string) :
  list_notes (Some s) uid
  = Ok (map (λ d, serialize_doc (Some d)) (take 100 (notes_of s uid))).
Proof. reflexivity. Qed.

Lemma notes_of_insert (s : DB) (p : NoteCreate) :
  notes_of (insert_one s "note" (note_dump p)).2 (nc_user_id p)
  = notes_of s (nc_user_id p)
    ++ [<["_id" := VObjectId (next_oid s)]> (note_dump p)].
Proof.
  unfold notes_of. rewrite coll_insert_one, List.filter_app. f_equal.
  cbn [List.filter].
  assert (H : (<["_id" := VObjectId (next_oid s)]> (note_dump p)) !! "user_id"
              = Some (VStr (nc_user_id p))).
  { unfold note_dump. rewrite lookup_insert_ne by discriminate.
    apply lookup_insert_eq. }
  now rewrite (proj2 (matches_single _ _ _) H).
Qed.

Lemma listed_serialized (docs : list (gmap string value)) (uid : string)
    (limit : nat) (x : option (gmap string value)) :
  In x (map (λ d, serialize_doc (Some d))
          (take limit (List.filter (matches [("user_id", VStr uid)]) docs))) →
  ∃ d0, In d0 docs
        ∧ d0 !! "user_id" = Some (VStr uid)
        ∧ x = serialize_doc (Some d0).
Proof.
  intros H. apply in_map_iff in H as (d0 & <- & Hd0).
  apply In_take, filter_In in Hd0 as [Hin Hm]. apply matches_single in Hm.
  now exists d0.
Qed.

(** X12.  [list_notes] answers with at most 100 notes and never more
    than the user has.  Each of them is the serialization, by
    [serialize_doc], of a document of the note collection whose user_id
    is the one asked for, and it carries that user_id still. *)
Theorem list_notes_bounded (s : DB) (uid : string) :
  ∃ l, list_notes (Some s) uid = Ok l
       ∧ length l ≤ 100
       ∧ length l ≤ length (notes_of s uid)
       ∧ ∀ x, In x l →
              ∃ d0 d, In d0 (coll s "note")
                      ∧ d0 !! "user_id" = Some (VStr uid)
                      ∧ x = serialize_doc (Some d0)
                      ∧ x = Some d
                      ∧ d !! "user_id" = Some (VStr uid).
Proof.
  eexists. split; [apply list_notes_ok|].
  rewrite length_map, length_take. split; [lia|]. split; [lia|].
  intros x Hx.
  destruct (listed_serialized _ _ _ _ Hx) as (d0 & Hin & Hu & Hs).
  destruct (listed_belongs _ _ _ _ Hx) as (d & Hd & Hdu).
  now exists d0, d.
Qed.

Lemma list_notes_bounded_witness :
  ∃ l, list_notes (Some note_store) "u" = Ok l
       ∧ length l = 1
       ∧ ∀ x, In x l → ∃ d, x = Some d ∧ d !! "user_id" = Some (VStr "u").
Proof.
  destruct (list_notes_bounded note_store "u") as (l & Hl & _ & _ & Hall).
  exists l. split; [exact Hl|]. split.
  - vm_compute in Hl. injection Hl as <-. reflexivity.
  - intros x Hx. destruct (Hall x Hx) as (d0 & d & _ & _ & _ & Hd & Hu).
    now exists d.
Defined.

(** X13.  [get_progress] answers with at most 500 items, each carrying
    the user_id that was asked for, and its completed count is at most the
    number of items it returns. *)
Theorem get_progress_bounded (s : DB) (uid : string) :
  ∃ g, get_progress (Some s) uid = Ok g
       ∧ length (items g) ≤ 500
       ∧ completed g ≤ length (items g)
       ∧ ∀ x, In x (items g) → ∃ d, x = Some d ∧ d !! "user_id" = Some (VStr uid).
Proof.
  eexists. split; [apply get_progress_ok|]. cbn [items completed].
  rewrite length_map, length_take. split; [lia|]. split.
  - unfold count_completed. rewrite <- (length_take (entries_of s uid) 500).
    apply filter_length_le.
  - intros x. apply listed_belongs.
Qed.

Lemma get_progress_bounded_witness :
  ∃ g, get_progress (Some (busy_store 3)) "u" = Ok g ∧ completed g ≤ 500.
Proof.
  destruct (get_progress_bounded (busy_store 3) "u") as (g & Hg & Hi & Hc & _).
  exists g. split; [exact Hg | lia].
Defined.

Lemma note_store_ids_ok : ids_ok note_store.
Proof.
  intros cname. unfold coll, note_store. cbn [collections next_oid].
  destruct (decide (cname = "note")) as [->|Hne].
  - rewrite lookup_singleton_eq. cbn [default from_option id]. split.
    + apply (bool_decide_unpack _). reflexivity.
    + repeat constructor; eexists; (split; [reflexivity | reflexivity]).
  - rewrite lookup_singleton_ne by congruence. split; constructor.
Qed.

(** X14.  For a user with fewer than 100 notes, in a store whose
    identifiers are in order, what [list_notes] returns after a
    [create_note] is, up to order, the note that [create_note] answered
    with together with the notes that were listed before. *)
Theorem create_note_then_list (s : DB) (p : NoteCreate) :
  ids_ok s →
  length (notes_of s (nc_user_id p)) < 100 →
  ∃ d s' l0 l1,
    create_note (Some s) p = (Ok (Some d), Some s')
    ∧ d !! "id" = Some (VStr (oid_str (VObjectId (next_oid s))))
    ∧ list_notes (Some s) (nc_user_id p) = Ok l0
    ∧ list_notes (Some s') (nc_user_id p) = Ok l1
    ∧ l1 ≡ₚ Some d :: l0
    ∧ In (Some d) l1.
Proof.
  intros H Hlen. destruct (note_dump_plain p) as [Hid Hiso].
  eexists _, _, _, _. rewrite create_note_ok, (find_one_inserted _ _ _ H).
  rewrite (serialize_inserted _ _ Hid Hiso). split; [reflexivity|].
  split; [apply lookup_insert_eq|]. rewrite !list_notes_ok.
  split; [reflexivity|]. rewrite notes_of_insert.
  rewrite !take_ge by (rewrite ?length_app; simpl; lia).
  rewrite map_app. cbn [map]. rewrite (serialize_inserted _ _ Hid Hiso).
  split; [reflexivity|]. split.
  - symmetry. apply Permutation_cons_append.
  - apply in_or_app. right. now left.
Qed.

Lemma create_note_then_list_witness :
  ∃ d s' l1,
    create_note (Some note_store)
      {| nc_user_id := "u"; nc_title := "t"; nc_content := "";
         nc_language := None |} = (Ok (Some d), Some s')
    ∧ list_notes (Some s') "u" = Ok l1
    ∧ In (Some d) l1
    ∧ length l1 = 2.
Proof.
  destruct (create_note_then_list note_store
              {| nc_user_id := "u"; nc_title := "t"; nc_content := "";
                 nc_language := None |} note_store_ids_ok)
    as (d & s' & l0 & l1 & Hc & _ & H0 & H1 & Hp & Hin); [vm_compute; lia|].
  exists d, s', l1. split; [exact Hc|]. split; [exact H1|]. split; [exact Hin|].
  rewrite Hp. vm_compute in H0. injection H0 as <-. reflexivity.
Defined.

(** ** What a write leaves alone *)

Lemma entries_of_insert_other (s : DB) (p : ProgressUpdate) (v : string) :
  pu_user_id p ≠ v →
  entries_of (insert_one s "progress" (model_dump p)).2 v = entries_of s v.
Proof.
  intros Hne. unfold entries_of. rewrite coll_insert_one, List.filter_app.
  cbn [List.filter].
  assert (H : matches [("user_id", VStr v)]
                (<["_id" := VObjectId (next_oid s)]> (model_dump p)) = false).
  { apply matches_single_false. rewrite entry_user_id. congruence. }
  rewrite H. apply app_nil_r.
Qed.

Lemma notes_of_insert_other (s : DB) (p : NoteCreate) (v : string) :
  nc_user_id p ≠ v →
  notes_of (insert_one s "note" (note_dump p)).2 v = notes_of s v.
Proof.
  intros Hne. unfold notes_of. rewrite coll_insert_one, List.filter_app.
  cbn [List.filter].
  assert (H : matches [("user_id", VStr v)]
                (<["_id" := VObjectId (next_oid s)]> (note_dump p)) = false).
  { apply matches_single_false. unfold note_dump.
    rewrite lookup_insert_ne by discriminate. rewrite lookup_insert_eq.
    congruence. }
  rewrite H. apply app_nil_r.
Qed.

Lemma listing_insert_elsewhere (s : DB) (cname : string)
    (doc : gmap string value) (v : string) :
  (cname ≠ "progress" →
   get_progress (Some (insert_one s cname doc).2) v = get_progress (Some s) v)
  ∧ (cname ≠ "note" →
     list_notes (Some (insert_one s cname doc).2) v = list_notes (Some s) v).
Proof.
  split; intros Hne.
  - rewrite !get_progress_ok. unfold entries_of.
    now rewrite coll_insert_one_ne by exact Hne.
  - rewrite !list_notes_ok. unfold notes_of.
    now rewrite coll_insert_one_ne by exact Hne.
Qed.

(** X15.  A write is seen only where it belongs.  Progress recorded for
    one user changes neither the progress of any other user nor anybody's
    notes; a note created for one user changes neither the notes of any
    other user nor anybody's progress; and a signup changes no listing at
    all. *)
Theorem writes_are_local (s : DB) (v : string) :
  (∀ p, (pu_user_id p ≠ v →
         get_progress (update_progress (Some s) p).2 v = get_progress (Some s) v)
        ∧ list_notes (update_progress (Some s) p).2 v = list_notes (Some s) v)
  ∧ (∀ n, (nc_user_id n ≠ v →
           list_notes (create_note (Some s) n).2 v = list_notes (Some s) v)
          ∧ get_progress (create_note (Some s) n).2 v = get_progress (Some s) v)
  ∧ (∀ t1 t2 p,
        get_progress (signup t1 t2 (Some s) p).2 v = get_progress (Some s) v
        ∧ list_notes (signup t1 t2 (Some s) p).2 v = list_notes (Some s) v).
Proof.
  split; [|split].
  - intros p. rewrite update_progress_ok. cbn [snd]. split.
    + intros Hne. rewrite !get_progress_ok.
      now rewrite (entries_of_insert_other s p v Hne).
    + now apply listing_insert_elsewhere.
  - intros n. rewrite create_note_ok. cbn [snd]. split.
    + intros Hne. rewrite !list_notes_ok.
      now rewrite (notes_of_insert_other s n v Hne).
    + now apply listing_insert_elsewhere.
  - intros t1 t2 p. rewrite signup_connected. split; reflexivity.
Qed.

Lemma writes_are_local_witness :
  get_progress (update_progress (Some (busy_store 3)) lesson_payload).2 "w"
  = get_progress (Some (busy_store 3)) "w".
Proof.
  apply (proj1 (proj1 (writes_are_local (busy_store 3) "w") lesson_payload)).
  discriminate.
Defined.

(** ** The alias of javascript *)

Lemma js_alias (x : string) :
  str_in x ["javascript"; "js"] = true →
  str_in x ["python"] = false ∧ (x = "javascript" ∨ x = "js").
Proof.
  intros H. apply str_in_cases in H.
  repeat match goal with
         | H : Exists _ _ |- _ => inversion H; clear H; subst
         end; split; auto.
Qed.

Lemma convert_stripped_alias_src (x x' tgt c : string) :
  str_in x ["javascript"; "js"] = true →
  str_in x' ["javascript"; "js"] = true →
  convert_stripped x tgt c = convert_stripped x' tgt c.
Proof.
  intros H H'. destruct (js_alias x H) as [Hp Hx], (js_alias x' H') as [Hp' Hx'].
  unfold convert_stripped. rewrite H, H', Hp, Hp'. cbn [andb].
  destruct (String.eqb x tgt) eqn:E; destruct (String.eqb x' tgt) eqn:E';
    try reflexivity.
  - apply String.eqb_eq in E. subst tgt. rewrite Hp. reflexivity.
  - apply String.eqb_eq in E'. subst tgt. rewrite Hp'. reflexivity.
Qed.

Lemma convert_stripped_alias_tgt (src y y' c : string) :
  str_in y ["javascript"; "js"] = true →
  str_in y' ["javascript"; "js"] = true →
  convert_stripped src y c = convert_stripped src y' c.
Proof.
  intros H H'. destruct (js_alias y H) as [Hp Hy], (js_alias y' H') as [Hp' Hy'].
  unfold convert_stripped. rewrite H, H', Hp, Hp'.
  rewrite !andb_false_r, !andb_true_r.
  destruct (String.eqb src y) eqn:E; destruct (String.eqb src y') eqn:E';
    try reflexivity.
  - apply String.eqb_eq in E. subst src. rewrite Hp. reflexivity.
  - apply String.eqb_eq in E'. subst src. rewrite Hp'. reflexivity.
Qed.

(** X19.  On either side, [js] and [javascript] give the same converted
    code, whatever the other language and the code; only the note can
    differ, as between js to js and javascript to js. *)
Theorem convert_code_js_alias (X X' Y Y' C : string) :
  str_in (PyStr.lower X) ["javascript"; "js"] = true →
  str_in (PyStr.lower X') ["javascript"; "js"] = true →
  (converted (convert_code {| source_language := X; target_language := Y;
                              code := C |})
   = converted (convert_code {| source_language := X'; target_language := Y;
                                code := C |}))
  ∧ (converted (convert_code {| source_language := Y'; target_language := X;
                                code := C |})
     = converted (convert_code {| source_language := Y'; target_language := X';
                                  code := C |})).
Proof.
  intros H H'. rewrite !convert_code_converted.
  cbn [source_language target_language code]. split.
  - now apply convert_stripped_alias_src.
  - now apply convert_stripped_alias_tgt.
Qed.

Lemma convert_code_js_alias_witness :
  converted (convert_code {| source_language := "JS"; target_language := "js";
                             code := " a " |})
  = converted (convert_code {| source_language := "JavaScript";
                               target_language := "js"; code := " a " |})
  ∧ notes (convert_code {| source_language := "JS"; target_language := "js";
                           code := " a " |})
    ≠ notes (convert_code {| source_language := "JavaScript";
                             target_language := "js"; code := " a " |}).
Proof.
  split.
  - apply (proj1 (convert_code_js_alias "JS" "JavaScript" "js" "js" " a "
                    eq_refl eq_refl)).
  - vm_compute. discriminate.
Defined.

(** ** Progress only goes up *)

Lemma count_completed_app (a b : list (gmap string value)) :
  count_completed (a ++ b) = count_completed a + count_completed b.
Proof. unfold count_completed. now rewrite List.filter_app, length_app. Qed.

Lemma count_completed_le (l : list (gmap string value)) :
  count_completed l ≤ length l.
Proof. apply filter_length_le. Qed.

Lemma entries_of_update (s : DB) (p : ProgressUpdate) (v : string) :
  ∃ e, entries_of (insert_one s "progress" (model_dump p)).2 v
       = entries_of s v ++ e
       ∧ length e ≤ 1.
Proof.
  destruct (decide (pu_user_id p = v)) as [<-|Hne].
  - eexists. split; [apply entries_of_insert | simpl; lia].
  - exists []. rewrite app_nil_r.
    split; [now apply entries_of_insert_other | simpl; lia].
Qed.

(** X20.  For a user with fewer than 500 entries, recording progress
    (for that user or for any other) never lowers what [get_progress]
    reports: afterwards the completed count is what it was or one more,
    and the rank is the same or a higher one. *)
Theorem update_progress_never_lowers (s : DB) (p : ProgressUpdate) (v : string) :
  length (entries_of s v) < 500 →
  ∃ g g',
    get_progress (Some s) v = Ok g
    ∧ get_progress (update_progress (Some s) p).2 v = Ok g'
    ∧ completed g ≤ completed g'
    ∧ completed g' ≤ S (completed g)
    ∧ rank_level (rank g) ≤ rank_level (rank g').
Proof.
  intros Hcap.
  eexists _, _. rewrite update_progress_ok. cbn [snd]. rewrite !get_progress_ok.
  split; [reflexivity|]. split; [reflexivity|]. cbn [completed rank].
  destruct (entries_of_update s p v) as (e & -> & He).
  rewrite !take_ge by (rewrite ?length_app; lia).
  rewrite count_completed_app.
  pose proof (count_completed_le e) as Hc.
  split; [lia|]. split; [lia|]. apply rank_of_mono. lia.
Qed.

Lemma update_progress_never_lowers_witness :
  ∃ g g',
    get_progress (Some (busy_store 3)) "u" = Ok g
    ∧ get_progress (update_progress (Some (busy_store 3)) lesson_payload).2 "u"
      = Ok g'
    ∧ completed g ≤ completed g'.
Proof.
  destruct (update_progress_never_lowers (busy_store 3) lesson_payload "u")
    as (g & g' & H & H' & Hle & _); [vm_compute; lia|].
  now exists g, g'.
Defined.
